(** * MarktoMarket: the replay engine and the metrics aggregator

    A shallow embedding of
    - the [periodData] replay of [src/components/Analytics.tsx] (the chart
      variant) and of its older table-only duplicate,
    - [calculateMetrics] of the back-test parser,
    followed by the properties of the position model, of the replay loop and
    of the metrics that the specification states.

    Conventions of the embedding.
    - In the replay and in the drawdown loop a JavaScript number is an exact
      rational ([Q]): every arithmetic step is the exact one, and the only
      rounding is the explicit [Number(x.toFixed(d))], where the code has
      the sums and products of binary64 numbers, each rounded to the
      nearest.  [NaN] and the infinities are not represented there, so a
      ledger whose textual fields do not parse is outside that part of the
      model.
    - Where a property does turn on the arithmetic of the numbers themselves,
      a JavaScript number is what it is, an IEEE 754 binary64 value
      ([PrimFloat.float], with its [NaN], infinities and signed zeros): so
      for the win rate of the metrics, whose guard is about 0/0, and for
      [calculateAverageEntryPrice] taken by itself, whose test is about the
      edge of a band.
    - A [Trade] carries the parsed view of its textual fields:
      [open] is [parseFloat(trade.open)], [price] and [profitLoss] likewise,
      and [stamp] is [new Date(trade.time).getTime()].  The text [time] is
      kept, because it is the key of the open-order object.  A row whose
      [profitLoss] text is empty is outside the model (the metrics read it
      as 0, the replay as [NaN]), and so is one whose text is no number.
    - The open-order object is a JavaScript object used as a map.  It is an
      association list kept in the order of [Object.keys]: array-index keys
      first, ascending, then the other keys in the order of their creation. *)

From Stdlib Require Import ZArith QArith Qabs Qround Qminmax Lqa Lia.
From Stdlib Require Import List String Ascii Bool Sorted Permutation DecimalString.
From Stdlib Require Import Floats.
Import ListNotations.

Local Open Scope Q_scope.

(* Decimal literals of binary64 numbers stand for the nearest binary64
   value, as they do in JavaScript. *)
Set Warnings "-inexact-float".

(* ------------------------------------------------------------------ *)
(** ** JavaScript numbers *)

Module JsNumber.

(** [x > y] and [x < y] on numbers. *)
Definition gtb (x y : Q) : bool := negb (Qle_bool x y).
Definition ltb (x y : Q) : bool := gtb y x.

Definition pow10 (d : nat) : Z := (10 ^ Z.of_nat d)%Z.

(** The integer [n] for which [n / 10^d - x] is closest to zero, the larger
    one on a tie; [x] is non-negative here. *)
Definition nearest (d : nat) (x : Q) : Z :=
  Qfloor (x * inject_Z (pow10 d) + (1 # 2)).

(** [Number(x.toFixed(d))].  [toFixed] works on the magnitude and puts the
    sign back; from 1e21 on it prints [x] itself, which [Number] reads
    back unchanged. *)
Definition toFixedNumber (d : nat) (x : Q) : Q :=
  if Qle_bool (inject_Z (10 ^ 21)) (Qabs x) then x
  else if ltb x 0
       then - (inject_Z (nearest d (- x)) / inject_Z (pow10 d))
       else inject_Z (nearest d x) / inject_Z (pow10 d).

Fixpoint zeros (k : nat) (s : string) : string :=
  match k with
  | O => s
  | S k' => String "0" (zeros k' s)
  end.

(** [s] left-padded with zeros to at least [d] characters. *)
Definition padLeft (d : nat) (s : string) : string :=
  zeros (d - String.length s) s.

Definition digitsOf (n : Z) : string :=
  NilZero.string_of_uint (N.to_uint (Z.to_N n)).

(** [x.toFixed(d)] below 1e21: sign, integer part, and [d] decimals.  The
    exponent form that JavaScript switches to from 1e21 on is not
    modelled; the text is then the plain decimal expansion. *)
Definition toFixed (d : nat) (x : Q) : string :=
  let neg := ltb x 0 in
  let n := nearest d (if neg then - x else x) in
  let whole := digitsOf (n / pow10 d) in
  let frac := padLeft d (digitsOf (n mod pow10 d)) in
  ((if neg then "-" else "") ++ whole
     ++ (match d with O => "" | S _ => "." ++ frac end))%string.

End JsNumber.

(* ------------------------------------------------------------------ *)
(** ** JavaScript numbers as binary64 values *)

Module JsDouble.

(** [x > y]; it is false when either side is [NaN]. *)
Definition gtb (x y : float) : bool := PrimFloat.ltb y x.

(** The number an array length is: a whole number below 2^32, which
    binary64 holds exactly. *)
Definition ofNat (n : nat) : float :=
  PrimFloat.of_uint63 (Uint63.of_Z (Z.of_nat n)).

(** The exact value of a finite number. *)
Definition toQ (x : float) : Q :=
  match Prim2SF x with
  | S754_finite s m e =>
      let v := inject_Z (Z.pos m) * 2 ^ e in if s then - v else v
  | _ => 0
  end.

(** [x.toFixed(d)]: the text of [NaN] and of the infinities, and otherwise
    the decimal nearest to the exact value of [x], which is what
    [JsNumber.toFixed] prints of a rational (as there, the exponent form
    from 1e21 on is not modelled). *)
Definition toFixed (d : nat) (x : float) : string :=
  if PrimFloat.is_nan x then "NaN"%string
  else if PrimFloat.is_infinity x
       then (if PrimFloat.ltb x 0 then "-Infinity" else "Infinity")%string
       else JsNumber.toFixed d (toQ x).

End JsDouble.

(* ------------------------------------------------------------------ *)
(** ** JavaScript strings *)

Module JsString.

Definition lowerChar (c : ascii) : ascii :=
  let n := nat_of_ascii c in
  if ((65 <=? n) && (n <=? 90))%nat then ascii_of_nat (n + 32) else c.

(** [s.toLowerCase()].  Only the letters A-Z are mapped: no other character
    lowers to a letter of the labels the replay compares with. *)
Fixpoint toLowerCase (s : string) : string :=
  match s with
  | EmptyString => EmptyString
  | String c s' => String (lowerChar c) (toLowerCase s')
  end.

(** A string is truthy unless it is empty. *)
Definition truthy (s : string) : bool :=
  match s with EmptyString => false | _ => true end.

End JsString.

(* ------------------------------------------------------------------ *)
(** ** JavaScript objects used as maps *)

Module JsObject.

Definition isDigit (c : ascii) : bool :=
  let n := nat_of_ascii c in ((48 <=? n) && (n <=? 57))%nat.

Fixpoint digitsValue (s : string) (acc : N) : option N :=
  match s with
  | EmptyString => Some acc
  | String c s' =>
      if isDigit c
      then digitsValue s' (acc * 10 + N.of_nat (nat_of_ascii c - 48))%N
      else None
  end.

(** The array index a property key denotes, if any: a canonical numeric
    string (no sign, no leading zero) of value below 2^32 - 1. *)
Definition arrayIndex (k : string) : option N :=
  match k with
  | EmptyString => None
  | String c rest =>
      if (c =? "0")%char
      then match rest with EmptyString => Some 0%N | _ => None end
      else match digitsValue k 0 with
           | Some n => if (n <? 2 ^ 32 - 1)%N then Some n else None
           | None => None
           end
  end.

Section Obj.
Context {V : Type}.

(** Own properties, in the order [Object.keys] lists them. *)
Definition t : Type := list (string * V).

Definition empty : t := [].

Definition keys (o : t) : list string := map fst o.
Definition values (o : t) : list V := map snd o.

Fixpoint get (k : string) (o : t) : option V :=
  match o with
  | [] => None
  | (k', v) :: o' => if (k' =? k)%string then Some v else get k o'
  end.

Definition has (k : string) (o : t) : bool :=
  match get k o with Some _ => true | None => false end.

(** Assignment to an existing property keeps its place. *)
Fixpoint replace (k : string) (v : V) (o : t) : t :=
  match o with
  | [] => []
  | (k', v') :: o' =>
      if (k' =? k)%string then (k, v) :: o'
      else (k', v') :: replace k v o'
  end.

(** A new array-index key goes before the first key that is a larger
    index or no index at all. *)
Fixpoint insertIndex (n : N) (k : string) (v : V) (o : t) : t :=
  match o with
  | [] => [(k, v)]
  | (k', v') :: o' =>
      match arrayIndex k' with
      | Some n' => if (n <? n')%N then (k, v) :: o
                   else (k', v') :: insertIndex n k v o'
      | None => (k, v) :: o
      end
  end.

(** [o[k] = v] *)
Definition set (k : string) (v : V) (o : t) : t :=
  if has k o then replace k v o
  else match arrayIndex k with
       | Some n => insertIndex n k v o
       | None => o ++ [(k, v)]
       end.

(** [delete o[k]] *)
Definition delete (k : string) (o : t) : t :=
  filter (fun kv => negb (fst kv =? k)%string) o.

End Obj.

Arguments t : clear implicits.

End JsObject.

(* ------------------------------------------------------------------ *)
(** ** The data of [types/backtest.ts] *)

(** A ledger row.  [open] is the lot size, [profitLoss] the realized P&L. *)
Record Trade : Type := {
  time : string;
  stamp : Z;
  type : string;
  price : Q;
  profitLoss : Q;
  open : Q
}.

(** A price bar; of its fields the replay reads these three. *)
Record MarketData : Type := {
  timestamp : Z;
  close : Q;
  conversionFx : Q
}.

Record BacktestData : Type := {
  trades : list Trade;
  marketData : option (list MarketData)
}.

(** One row of the analytics table.  [pd_timestamp] stands for the bar's
    time, which the components print in ISO form. *)
Record PeriodData : Type := {
  pd_timestamp : Z;
  pd_position : Q;
  pd_closed : Q;
  pd_aep : Q;
  pd_eoPeriodPrice : Q;
  pd_convertFX : Q;
  pd_open : Q;
  pd_total : Q
}.

(* ------------------------------------------------------------------ *)
(** ** The replay of [periodData] *)

(** The three variables the [useMemo] callback closes over. *)
Record Position : Type := {
  openOrderMap : JsObject.t (Q * Q);   (* key -> [lots, price] *)
  position : Q;
  closedProfit : Q
}.

Definition initial : Position :=
  {| openOrderMap := JsObject.empty; position := 0; closedProfit := 0 |}.

Definition sumLots (orders : JsObject.t (Q * Q)) : Q :=
  fold_left (fun acc lp => acc + fst lp) (JsObject.values orders) 0.

Definition sumPL (orders : JsObject.t (Q * Q)) : Q :=
  fold_left (fun acc lp => acc + fst lp * snd lp) (JsObject.values orders) 0.

Definition calculateAverageEntryPrice (orders : JsObject.t (Q * Q)) : Q :=
  if JsNumber.gtb (Qabs (sumLots orders)) 0.001
  then sumPL orders / sumLots orders
  else 0.

(** [[...trades].sort((a, b) => time(a) - time(b))]: a stable sort. *)
Fixpoint insertByTime (t : Trade) (l : list Trade) : list Trade :=
  match l with
  | [] => [t]
  | x :: l' => if (stamp t <=? stamp x)%Z then t :: l
               else x :: insertByTime t l'
  end.

Fixpoint sortTrades (l : list Trade) : list Trade :=
  match l with
  | [] => []
  | t :: l' => insertByTime t (sortTrades l')
  end.

(** The floating P&L of a bar, before it is rounded for display. *)
Definition floating (st : Position) (data : MarketData) : Q :=
  let aep := calculateAverageEntryPrice (openOrderMap st) in
  if JsNumber.gtb (Qabs (position st)) 0.001
  then ((close data - aep) * position st * 100000) / conversionFx data
  else 0.

(** The object literal returned for a bar. *)
Definition periodOf (st : Position) (data : MarketData) : PeriodData :=
  let aep := calculateAverageEntryPrice (openOrderMap st) in
  {| pd_timestamp := timestamp data;
     pd_position := position st;
     pd_closed := JsNumber.toFixedNumber 2 (closedProfit st);
     pd_aep := JsNumber.toFixedNumber 3 aep;
     pd_eoPeriodPrice := close data;
     pd_convertFX := conversionFx data;
     pd_open := JsNumber.toFixedNumber 2 (floating st data);
     pd_total := JsNumber.toFixedNumber 2 (floating st data + closedProfit st) |}.

Section Replay.

(** The two copies of the component differ in the second label of their
    close case. *)
Variable stopLabel : string.

(** The [buy] case. *)
Definition applyBuy (st : Position) (trade : Trade) : Position :=
  {| openOrderMap :=
       JsObject.set (time trade) (open trade, price trade) (openOrderMap st);
     position := JsNumber.toFixedNumber 2 (position st + open trade);
     closedProfit := closedProfit st |}.

(** The [sell] case. *)
Definition applySell (st : Position) (trade : Trade) : Position :=
  {| openOrderMap :=
       JsObject.set (time trade) (- open trade, price trade) (openOrderMap st);
     position := JsNumber.toFixedNumber 2 (position st - open trade);
     closedProfit := closedProfit st |}.

(** The close case: [orderKey] is the first key of the object, and the
    whole case is skipped when it is undefined or empty. *)
Definition applyClose (st : Position) (trade : Trade) : Position :=
  match openOrderMap st with
  | [] => st
  | (orderKey, (orderLots, _)) :: _ =>
      if JsString.truthy orderKey then
        let direction := if JsNumber.gtb orderLots 0 then 1 else - (1) in
        {| openOrderMap := JsObject.delete orderKey (openOrderMap st);
           position :=
             JsNumber.toFixedNumber 2 (position st - direction * open trade);
           closedProfit := closedProfit st + profitLoss trade |}
      else st
  end.

(** The body of the [switch]; it has no default case. *)
Definition applyTrade (st : Position) (trade : Trade) : Position :=
  let ty := JsString.toLowerCase (type trade) in
  if (ty =? "buy")%string then applyBuy st trade
  else if (ty =? "sell")%string then applySell st trade
  else if ((ty =? "t/p") || (ty =? stopLabel))%string then applyClose st trade
  else st.

(** The position a run of ledger rows leads to from the initial one. *)
Definition after (ledger : list Trade) : Position :=
  fold_left applyTrade ledger initial.

(** The [while] loop of one bar: trades are shifted off the sorted ledger
    as long as the first one is not later than the bar. *)
Fixpoint processTrades (ts : Z) (sortedTrades : list Trade) (st : Position)
  : list Trade * Position :=
  match sortedTrades with
  | [] => ([], st)
  | trade :: rest =>
      if (stamp trade <=? ts)%Z
      then processTrades ts rest (applyTrade st trade)
      else (sortedTrades, st)
  end.

(** [marketData.map(data => ...)], the ledger and the position being shared
    by all the calls. *)
Fixpoint mapMarketData (bars : list MarketData) (sortedTrades : list Trade)
         (st : Position) : list PeriodData :=
  match bars with
  | [] => []
  | data :: bars' =>
      let (rest, st') := processTrades (timestamp data) sortedTrades st in
      periodOf st' data :: mapMarketData bars' rest st'
  end.

Definition periodData (backtestData : option BacktestData) : list PeriodData :=
  match backtestData with
  | None => []
  | Some b =>
      match marketData b with
      | None => []
      | Some bars => mapMarketData bars (sortTrades (trades b)) initial
      end
  end.

(** The ledger and the position as they stand once the bars are done. *)
Fixpoint runBars (bars : list MarketData) (sortedTrades : list Trade)
         (st : Position) : list Trade * Position :=
  match bars with
  | [] => (sortedTrades, st)
  | data :: bars' =>
      let (rest, st') := processTrades (timestamp data) sortedTrades st in
      runBars bars' rest st'
  end.

End Replay.

(** [src/components/Analytics.tsx], the component with the chart. *)
Module Analytics.
Definition applyTrade := applyTrade "s/l".
Definition processTrades := processTrades "s/l".
Definition mapMarketData := mapMarketData "s/l".
Definition runBars := runBars "s/l".
Definition periodData := periodData "s/l".
End Analytics.

(** The older copy of the component, which has the table only. *)
Module AnalyticsTable.
Definition applyTrade := applyTrade "close at stop".
Definition processTrades := processTrades "close at stop".
Definition mapMarketData := mapMarketData "close at stop".
Definition periodData := periodData "close at stop".
End AnalyticsTable.

(* ------------------------------------------------------------------ *)
(** ** [calculateAverageEntryPrice] on binary64 numbers

    The function by itself, on an object whose values are pairs of binary64
    numbers: one [forEach] that accumulates both sums, then the test against
    the literal 0.001. *)

Module Binary64.

Definition calculateAverageEntryPrice (orders : JsObject.t (float * float))
  : float :=
  let '(sumLots, sumPL) :=
    fold_left (fun '(sumLots, sumPL) '(lots, price) =>
                 (sumLots + lots, sumPL + lots * price)%float)
              (JsObject.values orders) (0, 0)%float in
  if JsDouble.gtb (abs sumLots) 0.001
  then (sumPL / sumLots)%float
  else 0%float.

End Binary64.


(* ------------------------------------------------------------------ *)
(** ** [calculateMetrics]

    The metrics read [parseFloat(trade.profitLoss || '0')], which is the
    [profitLoss] of the parsed view wherever the text is a number.  A figure
    that is [NaN] compares false with 0 on either side, so that for the
    counts it stands as 0 does. *)

Definition isClosedTrade (t : Trade) : bool :=
  ((JsString.toLowerCase (type t) =? "t/p")
   || (JsString.toLowerCase (type t) =? "s/l"))%string.

Definition closedTrades (ts : list Trade) : list Trade :=
  filter isClosedTrade ts.

(** [closedTrades.length || 1] *)
Definition totalClosedTrades (ts : list Trade) : nat :=
  match List.length (closedTrades ts) with
  | O => 1%nat
  | n => n
  end.

Definition winningTrades (ts : list Trade) : nat :=
  List.length (filter (fun t => JsNumber.gtb (profitLoss t) 0) (closedTrades ts)).

Definition losingTrades (ts : list Trade) : nat :=
  List.length (filter (fun t => JsNumber.ltb (profitLoss t) 0) (closedTrades ts)).

(** The rate in percent, before it is printed: the quotient and the product
    of binary64 numbers, so that 0/0 is [NaN]. *)
Definition winRateNumber (ts : list Trade) : float :=
  (JsDouble.ofNat (winningTrades ts) / JsDouble.ofNat (totalClosedTrades ts)
   * 100)%float.

Definition winRate (ts : list Trade) : string :=
  (JsDouble.toFixed 1 (winRateNumber ts) ++ "%")%string.

(** The three variables of the drawdown loop. *)
Record Drawdown : Type := {
  maxDrawdown : Q;
  peak : Q;
  balance : Q
}.

Definition drawdownStart : Drawdown :=
  {| maxDrawdown := 0; peak := 0; balance := 100000 |}.

Definition balanceAfter (s : Drawdown) (trade : Trade) : Q :=
  balance s + profitLoss trade.

Definition peakAfter (s : Drawdown) (trade : Trade) : Q :=
  if JsNumber.gtb (balanceAfter s trade) (peak s)
  then balanceAfter s trade else peak s.

(** The [drawdown] constant of one iteration. *)
Definition drawdownOf (s : Drawdown) (trade : Trade) : Q :=
  if JsNumber.gtb (peakAfter s trade) 0
  then ((peakAfter s trade - balanceAfter s trade) / peakAfter s trade) * 100
  else 0.

(** One iteration of [for (const trade of trades)]. *)
Definition drawdownStep (s : Drawdown) (trade : Trade) : Drawdown :=
  {| maxDrawdown :=
       if JsNumber.gtb (drawdownOf s trade) (maxDrawdown s)
       then drawdownOf s trade else maxDrawdown s;
     peak := peakAfter s trade;
     balance := balanceAfter s trade |}.

Definition drawdownLoop (ts : list Trade) : Drawdown :=
  fold_left drawdownStep ts drawdownStart.

(** The fields of the result that the properties below are about. *)
Record Metrics : Type := {
  totalTrades : nat;
  m_winningTrades : nat;
  m_losingTrades : nat;
  m_winRate : string;
  m_maxDrawdown : string
}.

Definition calculateMetrics (ts : list Trade) : Metrics :=
  {| totalTrades := List.length ts;
     m_winningTrades := winningTrades ts;
     m_losingTrades := losingTrades ts;
     m_winRate := winRate ts;
     m_maxDrawdown :=
       (JsNumber.toFixed 2 (maxDrawdown (drawdownLoop ts)) ++ "%")%string |}.


(* ================================================================== *)
(** * Notions of the specification *)

(* ------------------------------------------------------------------ *)
(** ** Kinds of ledger rows *)

Definition isBuy (t : Trade) : bool :=
  (JsString.toLowerCase (type t) =? "buy")%string.

Definition isSell (t : Trade) : bool :=
  (JsString.toLowerCase (type t) =? "sell")%string.

(** An open is a buy or a sell; a close is a T/P or an S/L, which is
    [isClosedTrade]. *)
Definition isOpenTrade (t : Trade) : bool := isBuy t || isSell t.

(** The labels the switch of the chart component has a case for. *)
Definition recognised (ty : string) : bool :=
  ((ty =? "buy") || (ty =? "sell") || (ty =? "t/p") || (ty =? "s/l"))%string.

(** The types both copies of the component handle in the same case. *)
Definition sharedType (trade : Trade) : Prop :=
  In (JsString.toLowerCase (type trade)) ["buy"; "sell"; "t/p"]%string.

Definition offLabels (l1 l2 : string) (trade : Trade) : Prop :=
  JsString.toLowerCase (type trade) <> l1 /\
  JsString.toLowerCase (type trade) <> l2.

(* ------------------------------------------------------------------ *)
(** ** Time order *)

Definition byTime (a b : Trade) : Prop := (stamp a <= stamp b)%Z.

Definition byBarTime (a b : MarketData) : Prop := (timestamp a <= timestamp b)%Z.

(** The test of the [while] loop, and its negation. *)
Definition due (ts : Z) (t : Trade) : bool := (stamp t <=? ts)%Z.

Definition later (ts : Z) (t : Trade) : bool := negb (due ts t).

(* ------------------------------------------------------------------ *)
(** ** Open lots *)

(** The entry an open trade leaves in the object. *)
Definition lotOf (t : Trade) : string * (Q * Q) :=
  (time t, (if isBuy t then open t else - open t, price t)).



Fixpoint total (l : list Q) : Q :=
  match l with
  | [] => 0
  | x :: l' => x + total l'
  end.




(* ------------------------------------------------------------------ *)
(** ** The weighted mean of binary64 numbers

    The sum of binary64 numbers taken from the left, each step rounded; the
    sum of the signed lots of the open lots and the mean of their entry
    prices weighted by the signed lots, as the specification has them, on
    such sums. *)

Definition sum64 (xs : list float) : float :=
  fold_left PrimFloat.add xs 0%float.

Definition netLots64 (orders : JsObject.t (float * float)) : float :=
  sum64 (map (fun e => fst (snd e)) orders).

Definition weightedPrices64 (orders : JsObject.t (float * float)) : float :=
  sum64 (map (fun e => fst (snd e) * snd (snd e))%float orders).

Definition weightedMean64 (orders : JsObject.t (float * float)) : float :=
  (weightedPrices64 orders / netLots64 orders)%float.

(** A binary64 value, in the form the specification of the format gives it,
    that is a number and has the sign [s]. *)
Definition signedNumber (s : bool) (x : spec_float) : Prop :=
  match x with
  | S754_nan => False
  | S754_zero s' => s' = s
  | S754_infinity s' => s' = s
  | S754_finite s' _ _ => s' = s
  end.

(* ------------------------------------------------------------------ *)
(** ** The grid of hundredths *)

(** A whole number of hundredths. *)
Definition Cents (q : Q) : Prop := exists n : Z, q == n # 100.

(** What [Number(x.toFixed(2))] can return: zero, or a number of magnitude
    one hundredth at least. *)
Definition offBandEdge (q : Q) : Prop := q == 0 \/ 0.01 <= Qabs q.

(* ------------------------------------------------------------------ *)
(** ** Net position against open lots *)





(* ------------------------------------------------------------------ *)
(** ** Counts of the metrics *)

Fixpoint countIf {A : Type} (p : A -> bool) (l : list A) : nat :=
  match l with
  | [] => 0
  | x :: l' => (if p x then 1 else 0) + countIf p l'
  end.

(** The rows the filter of the metrics takes as closed. *)
Definition closedCount (ts : list Trade) : nat := countIf isClosedTrade ts.

(** The rows of kind T/P or S/L, and those of them with a positive realized
    P&L, taken by the look of the type alone: the ways of writing T/P and
    S/L in capital and small letters. *)
Definition closeLabels : list string :=
  ["T/P"; "t/p"; "T/p"; "t/P"; "S/L"; "s/l"; "S/l"; "s/L"]%string.

Definition ofCloseKind (t : Trade) : bool :=
  existsb (String.eqb (type t)) closeLabels.

Definition closedOfKind (ts : list Trade) : nat := countIf ofCloseKind ts.

Definition winningOfKind (ts : list Trade) : nat :=
  countIf (fun t => ofCloseKind t && JsNumber.gtb (profitLoss t) 0) ts.

(* ------------------------------------------------------------------ *)
(** ** Sample ledgers and bars

    Times are minutes of one day, 900 standing for 09:00; every fraction used
    is a short decimal. *)

Definition row (tm : string) (s : Z) (ty : string) (lots p pl : Q) : Trade :=
  {| time := tm; stamp := s; type := ty; price := p;
     profitLoss := pl; open := lots |}.

Definition bar (s : Z) (c : Q) : MarketData :=
  {| timestamp := s; close := c; conversionFx := 1 |}.

(** One long lot opened at 09:00 and taken at profit at 09:10, over four
    bars. *)
Definition scenarioBars : list MarketData :=
  [bar 900 1.1; bar 905 1.103; bar 910 1.105; bar 915 1.105].

Definition scenario : BacktestData :=
  {| trades := [row "2024.01.02 09:00" 900 "BUY" 1 1.1 0;
                row "2024.01.02 09:10" 910 "T/P" 1 1.105 50];
     marketData := Some scenarioBars |}.

(** The same with an open after the last bar. *)
Definition lateLedger : list Trade :=
  trades scenario ++ [row "2024.01.02 09:30" 930 "BUY" 1 1.2 0].

(** A close with no open before it. *)
Definition orphanClose : Trade :=
  row "2024.01.02 09:10" 910 "T/P" 1 1.105 (-20).

(** A row of a type the switch has no case for. *)
Definition depositRow : Trade :=
  row "2024.01.02 09:00" 900 "balance" 1 0 1000.

(** Two opens and a close; the close has the price of the second open. *)
Definition fifoO1 : Trade := row "2024.01.02 09:00" 900 "buy" 1 1.1 0.
Definition fifoO2 : Trade := row "2024.01.02 09:05" 905 "buy" 1 1.2 0.
Definition fifoC1 : Trade := row "2024.01.02 09:10" 910 "t/p" 1 1.2 1000.



(** Open lots in binary64: a single lot of a thousandth; two lots of one;
    and two lots whose sizes add up to a thousandth as decimals, and to a
    little more as binary64 numbers. *)
Definition thinLot : JsObject.t (float * float) :=
  [("2024.01.02 09:00"%string, (0.001, 1.5)%float)].

Definition twoLots : JsObject.t (float * float) :=
  [("2024.01.02 09:00"%string, (1, 1.1)%float);
   ("2024.01.02 09:05"%string, (1, 1.2)%float)].

Definition edgeLots : JsObject.t (float * float) :=
  [("2024.01.02 09:00"%string, (0.001962, 1.1)%float);
   ("2024.01.02 09:05"%string, (-0.000962, 1.2)%float)].

(** A loss of a quarter of the balance, then a partial recovery. *)
Definition losingRun : list Trade :=
  [row "2024.01.02 09:00" 900 "BUY" 1 1.1 0;
   row "2024.01.02 09:10" 910 "S/L" 1 1.09 (-25000);
   row "2024.01.02 09:20" 920 "BUY" 1 1.09 0;
   row "2024.01.02 09:30" 930 "T/P" 1 1.1 10000].

(** Two buys within the same minute; a close of half the open size. *)
Definition sameMinute : list Trade :=
  [row "2024.01.02 09:00" 900 "BUY" 1 1.1 0;
   row "2024.01.02 09:00" 900 "BUY" 1 1.1005 0].




(* ================================================================== *)
(** * The rest of the code around the replay and the metrics *)

(* ------------------------------------------------------------------ *)
(** ** The profits and the losses of [calculateMetrics] *)

(** The positive and the negative figures of all the rows, closed or not,
    which the averages and the profit factor are taken over. *)
Definition profits (ts : list Trade) : list Q :=
  map profitLoss (filter (fun t => JsNumber.gtb (profitLoss t) 0) ts).

Definition losses (ts : list Trade) : list Q :=
  map profitLoss (filter (fun t => JsNumber.ltb (profitLoss t) 0) ts).

(* ------------------------------------------------------------------ *)
(** ** Paging of the tables

    The analytics table, its older copy and the trade table cut their rows
    into pages in the same way. *)

(** How [Array.prototype.slice] reads an index: from the end when it is
    negative, and never beyond the ends. *)
Definition relativeIndex (len i : Z) : Z :=
  if (i <? 0)%Z then Z.max (len + i) 0 else Z.min i len.

Definition slice {A : Type} (start fin : Z) (l : list A) : list A :=
  let len := Z.of_nat (List.length l) in
  let k := relativeIndex len start in
  let e := relativeIndex len fin in
  firstn (Z.to_nat (e - k)) (skipn (Z.to_nat k) l).

(** [Math.ceil(rows.length / pageSize)] *)
Definition totalPages {A : Type} (pageSize : Z) (rows : list A) : Z :=
  Qceiling (inject_Z (Z.of_nat (List.length rows)) / inject_Z pageSize).

Definition indexOfLastPeriod (currentPage pageSize : Z) : Z :=
  (currentPage * pageSize)%Z.

Definition indexOfFirstPeriod (currentPage pageSize : Z) : Z :=
  (indexOfLastPeriod currentPage pageSize - pageSize)%Z.

Definition currentPeriods {A : Type} (currentPage pageSize : Z) (rows : list A)
  : list A :=
  slice (indexOfFirstPeriod currentPage pageSize)
        (indexOfLastPeriod currentPage pageSize) rows.

(** The two numbers of the line "Showing a-b of n". *)
Definition showingFrom (currentPage pageSize : Z) : Z :=
  (indexOfFirstPeriod currentPage pageSize + 1)%Z.

Definition showingTo {A : Type} (currentPage pageSize : Z) (rows : list A) : Z :=
  Z.min (indexOfLastPeriod currentPage pageSize) (Z.of_nat (List.length rows)).

(** The pages 1, 2, ..., n. *)
Definition pagesUpTo (n : Z) : list Z :=
  map (fun i => Z.of_nat (S i)) (seq 0 (Z.to_nat n)).

(* ------------------------------------------------------------------ *)
(** ** [handleRangeChange] of the chart component

    The result is the range handed to [setVisibleRange], in seconds, or
    nothing when the function returns before it; [chartReady] tells whether
    [chartRef.current] is set. *)

Definition secondsOf (ms : Z) : Z := (ms / 1000)%Z.    (* Math.floor(ms / 1000) *)

Definition intervalsPerDay : Z := 96.

Definition rangeStart (range : string) (endTime : Z) : Z :=
  if (range =? "1D")%string
  then (endTime - intervalsPerDay * 15 * 60 * 1000)%Z
  else if (range =? "7D")%string
  then (endTime - 7 * intervalsPerDay * 15 * 60 * 1000)%Z
  else if (range =? "30D")%string
  then (endTime - 30 * intervalsPerDay * 15 * 60 * 1000)%Z
  else if (range =? "1Y")%string
  then (endTime - 365 * intervalsPerDay * 15 * 60 * 1000)%Z
  else endTime.

Definition handleRangeChange (chartReady : bool) (range : string)
           (filteredData : list PeriodData) : option (Z * Z) :=
  if negb chartReady then None
  else match filteredData with
       | [] => None
       | first :: _ =>
           let lastPoint := last filteredData first in
           if (range =? "All")%string
           then Some (secondsOf (pd_timestamp first),
                      secondsOf (pd_timestamp lastPoint))
           else let endTime := pd_timestamp lastPoint in
                Some (secondsOf (rangeStart range endTime), secondsOf endTime)
       end.

(* ------------------------------------------------------------------ *)
(** ** The trade table's filter *)

(** [filteredTrades] of the trade table.  A row of the parsed view has a
    type, so [enhancedTrades] is the ledger itself. *)
Definition filteredTrades (selectedTradeType : string) (ts : list Trade)
  : list Trade :=
  if (selectedTradeType =? "CLOSED")%string
  then filter (fun trade => ((type trade =? "S/L") || (type trade =? "T/P"))%string) ts
  else if negb (selectedTradeType =? "ALL")%string
  then filter (fun trade => (type trade =? selectedTradeType)%string) ts
  else ts.

(* ------------------------------------------------------------------ *)
(** ** The points of the trade chart *)

Definition upperChar (c : ascii) : ascii :=
  let n := nat_of_ascii c in
  if ((97 <=? n) && (n <=? 122))%nat then ascii_of_nat (n - 32) else c.

(** [s.toUpperCase()], on the letters a-z; it is applied to types whose
    lowercase is one of the plain labels only. *)
Fixpoint toUpperCase (s : string) : string :=
  match s with
  | EmptyString => EmptyString
  | String c s' => String (upperChar c) (toUpperCase s')
  end.

(** An element of [priceData]; its field [trades] is the constant 1. *)
Record PricePoint : Type := {
  pp_time : Z;
  pp_value : Q;
  pp_profitLoss : Q;
  pp_tradeType : string
}.

(** The closed trades in time order, as the chart effect takes them. *)
Definition chartClosedTrades (ts : list Trade) : list Trade :=
  sortTrades (filter isClosedTrade ts).

Definition pricePointOf (trade : Trade) : PricePoint :=
  {| pp_time := secondsOf (stamp trade);
     pp_value := price trade;
     pp_profitLoss := profitLoss trade;
     pp_tradeType := toUpperCase (type trade) |}.

(** [priceData.sort((a, b) => a.time - b.time)] *)
Fixpoint insertPoint (p : PricePoint) (l : list PricePoint) : list PricePoint :=
  match l with
  | [] => [p]
  | x :: l' => if (pp_time p <=? pp_time x)%Z then p :: l
               else x :: insertPoint p l'
  end.

Fixpoint sortPoints (l : list PricePoint) : list PricePoint :=
  match l with
  | [] => []
  | p :: l' => insertPoint p (sortPoints l')
  end.

(** [self.findIndex(p)], which is -1 when nothing is found. *)
Fixpoint findIndex {A : Type} (p : A -> bool) (l : list A) : Z :=
  match l with
  | [] => (-1)%Z
  | x :: l' =>
      if p x then 0%Z
      else let i := findIndex p l' in
           if (i =? -1)%Z then (-1)%Z else (i + 1)%Z
  end.

(** [l.filter((item, index) => f item index)], [i] being the index of the
    head of [l]. *)
Fixpoint filterIndexed {A : Type} (f : A -> Z -> bool) (i : Z) (l : list A)
  : list A :=
  match l with
  | [] => []
  | x :: l' => if f x i then x :: filterIndexed f (i + 1)%Z l'
               else filterIndexed f (i + 1)%Z l'
  end.

(** [self.filter((item, index, self) =>
       index === self.findIndex(t => t.time === item.time))] *)
Definition uniqueTimes (self : list PricePoint) : list PricePoint :=
  filterIndexed
    (fun item index =>
       (index =? findIndex (fun t => (pp_time t =? pp_time item)%Z) self)%Z)
    0%Z self.

Definition priceData (ts : list Trade) : list PricePoint :=
  uniqueTimes (sortPoints (map pricePointOf (chartClosedTrades ts))).

(* ------------------------------------------------------------------ *)
(** ** [extractTrades]

    The document is read through [querySelectorAll]: it is the list of its
    table rows, a row being the texts of its cells.  The three functions of
    the platform that the parser applies to a cell text are parameters. *)

Module Raw.

(** A ledger row as the parser builds it: every field is a text. *)
Record Trade : Type := {
  time : string;
  type : string;
  price : string;
  takeProfit : string;
  stopLoss : string;
  balance : string;
  total : string;
  profitLoss : string;
  open : string;
  convertFX : string
}.

End Raw.

Inductive Platform : Type := MT4 | MT5.

Section Parser.

Variable trim : string -> string.         (* s.trim() *)
Variable isNumber : string -> bool.       (* !isNaN(Number(s)) *)
Variable isFloat : string -> bool.        (* !isNaN(parseFloat(s)) *)

(** [cells[i]?.textContent?.trim() || ''] *)
Definition cellText (cells : list string) (i : nat) : string :=
  match nth_error cells i with
  | Some c => trim c
  | None => ""%string
  end.

Definition mt4Types : list string := ["buy"; "sell"; "t/p"; "s/l"]%string.

Definition mt5Types : list string := ["buy"; "sell"; "tp"; "sl"]%string.

Definition includes (labels : list string) (s : string) : bool :=
  existsb (String.eqb s) labels.

(** The MT4 branch of the loop body. *)
Definition mt4Trade (cells : list string) : option Raw.Trade :=
  let type := cellText cells 2 in
  if includes mt4Types (JsString.toLowerCase type)
  then Some {| Raw.time := cellText cells 1;
               Raw.type := toUpperCase type;
               Raw.price := cellText cells 5;
               Raw.takeProfit := cellText cells 7;
               Raw.stopLoss := cellText cells 6;
               Raw.balance := cellText cells 9;
               Raw.total := cellText cells 9;
               Raw.profitLoss := cellText cells 8;
               Raw.open := "1";
               Raw.convertFX := "1.0000" |}
  else None.

(** The index of the first cell, from [i] on, whose text is a type. *)
Fixpoint findTypeIndex (cells : list string) (i : nat) : option nat :=
  match cells with
  | [] => None
  | c :: rest =>
      if includes mt5Types (JsString.toLowerCase (trim c)) then Some i
      else findTypeIndex rest (S i)
  end.

Definition normalizedType (type : string) : string :=
  let u := toUpperCase type in
  if (u =? "TP")%string then "T/P"%string
  else if (u =? "SL")%string then "S/L"%string
  else u.

(** The loop that looks for the take-profit and stop-loss columns: the
    first two cells of [indexes] that hold a number; it stops at the
    second. *)
Fixpoint scanColumns (cells : list string) (indexes : list nat)
         (takeProfitIndex : option nat) : option nat * option nat :=
  match indexes with
  | [] => (takeProfitIndex, None)
  | i :: rest =>
      let text := cellText cells i in
      if JsString.truthy text && isFloat text
      then match takeProfitIndex with
           | None => scanColumns cells rest (Some i)
           | Some _ => (takeProfitIndex, Some i)
           end
      else scanColumns cells rest takeProfitIndex
  end.

(** The columns of take profit and stop loss, with their fallbacks. *)
Definition mt5Columns (cells : list string) (priceIndex : nat) : nat * nat :=
  let first := S priceIndex in
  let bound := (List.length cells - 3)%nat in
  let found := scanColumns cells (seq first (bound - first)) None in
  let takeProfitIndex :=
    match fst found with Some i => i | None => (priceIndex + 2)%nat end in
  let stopLossIndex :=
    match snd found with Some i => i | None => (takeProfitIndex + 1)%nat end in
  (takeProfitIndex, stopLossIndex).

(** The MT5 branch of the loop body. *)
Definition mt5Trade (cells : list string) : option Raw.Trade :=
  match findTypeIndex cells 0 with
  | None => None
  | Some typeIndex =>
      let type := cellText cells typeIndex in
      let timeIndex := Nat.max 0 (typeIndex - 1) in
      let priceIndex := (typeIndex + 3)%nat in
      let columns := mt5Columns cells priceIndex in
      let balanceIndex := (List.length cells - 3)%nat in
      let profitLossIndex := (balanceIndex - 1)%nat in
      let fixStop (s : string) :=
        if ((normalizedType type =? "S/L") && (s =? ""))%string
        then cellText cells priceIndex else s in
      Some {| Raw.time := cellText cells timeIndex;
              Raw.type := normalizedType type;
              Raw.price := cellText cells priceIndex;
              Raw.takeProfit := cellText cells (fst columns);
              Raw.stopLoss := fixStop (cellText cells (snd columns));
              Raw.balance := cellText cells balanceIndex;
              Raw.total := cellText cells balanceIndex;
              Raw.profitLoss := cellText cells profitLossIndex;
              Raw.open := "1";
              Raw.convertFX := "1.0000" |}
  end.

(** One turn of [for (const row of tableRows)]: the trade the row adds, if
    any. *)
Definition rowTrade (platform : Platform) (cells : list string)
  : option Raw.Trade :=
  if (List.length cells <? 8)%nat then None
  else let firstCell := cellText cells 0 in
       if negb (JsString.truthy firstCell) || negb (isNumber firstCell)
       then None
       else match platform with
            | MT4 => mt4Trade cells
            | MT5 => mt5Trade cells
            end.

Fixpoint extractTrades (platform : Platform) (tableRows : list (list string))
  : list Raw.Trade :=
  match tableRows with
  | [] => []
  | cells :: rest =>
      match rowTrade platform cells with
      | Some trade => trade :: extractTrades platform rest
      | None => extractTrades platform rest
      end
  end.

End Parser.

(* ------------------------------------------------------------------ *)
(** ** Notions for the further properties *)

(** The largest bar time met so far, bar by bar. *)
Fixpoint watermarksFrom (m : Z) (bars : list MarketData) : list Z :=
  match bars with
  | [] => []
  | data :: bars' =>
      Z.max m (timestamp data) :: watermarksFrom (Z.max m (timestamp data)) bars'
  end.

Definition watermarks (bars : list MarketData) : list Z :=
  match bars with
  | [] => []
  | data :: bars' => timestamp data :: watermarksFrom (timestamp data) bars'
  end.

(** The balances of the drawdown loop after each row. *)
Fixpoint balancesFrom (b : Q) (ts : list Trade) : list Q :=
  match ts with
  | [] => []
  | t :: ts' => (b + profitLoss t) :: balancesFrom (b + profitLoss t) ts'
  end.

(** A trim to try the parser with: it removes the blanks in front. *)
Fixpoint dropBlanks (s : string) : string :=
  match s with
  | String " " s' => dropBlanks s'
  | _ => s
  end.

(** Whole numbers without a sign, as the order numbers in the first column
    are; on them [!isNaN(Number(s))] holds. *)
Definition allDigits (s : string) : bool :=
  match JsObject.digitsValue s 0 with Some _ => true | None => false end.

(** [!isNaN(parseFloat(s))] of a text without blanks in front: [parseFloat]
    reads the longest decimal literal the text begins with, so the test
    holds when, after a sign if there is one, the text begins with a digit,
    with a point and a digit, or with Infinity. *)
Definition readsAsFloat (s : string) : bool :=
  let body := match s with
              | String "+" s' => s'
              | String "-" s' => s'
              | _ => s
              end in
  match body with
  | EmptyString => false
  | String c rest =>
      JsObject.isDigit c
      || ((c =? ".")%char
          && match rest with
             | String d _ => JsObject.isDigit d
             | EmptyString => false
             end)
      || String.prefix "Infinity" body
  end.

Definition mt4Sample : list (list string) :=
  [["1"; "2024.01.02 09:00"; "buy"; "1"; "0.10"; "1.1000"; "1.0950"; "1.1050";
    ""; ""]%string;
   ["2"; "2024.01.02 09:10"; "t/p"; "1"; "0.10"; "1.1050"; "1.0950"; "1.1050";
    "50.00"; "10050.00"]%string;
   ["3"; "2024.01.02 09:12"; "modify"; "2"; "0.10"; "1.1050"; "1.0950"; "1.1050";
    ""; ""]%string;
   ["Symbol"; "EURUSD"]%string].

Definition mt5Sample : list (list string) :=
  [["7"; "2024.01.02 09:20"; "sl"; "in"; "0.10"; "1.0950"; ""; ""; ""; "-50.00";
    "9950.00"; ""; ""]%string].

(** A row of type sl with neither a price nor any figure after it. *)
Definition mt5Bare : list string :=
  ["8"; "2024.01.02 09:25"; "sl"; "in"; "0.10"; ""; ""; ""; ""; ""; ""; ""; ""]%string.


(* ------------------------------------------------------------------ *)
(** ** Further notions and samples *)

(** A winning and a losing trade. *)
Definition mixedResults : list Trade :=
  [row "2024.01.02 09:00" 900 "BUY" 1 1.1 0;
   row "2024.01.02 09:10" 910 "T/P" 1 1.105 50;
   row "2024.01.02 09:20" 920 "SELL" 1 1.105 0;
   row "2024.01.02 09:30" 930 "S/L" 1 1.107 (-20)].

(** The range labels of the buttons that look back from the last row, with
    the days they stand for. *)
Definition rangeDays : list (string * Z) :=
  [("1D"%string, 1%Z); ("7D"%string, 7%Z); ("30D"%string, 30%Z);
   ("1Y"%string, 365%Z)].

(** The test of the Closed filter of the trade table. *)
Definition tableClosed (trade : Trade) : bool :=
  ((type trade =? "S/L") || (type trade =? "T/P"))%string.

(** The types the parser writes. *)
Definition ledgerTypes : list string := ["BUY"; "SELL"; "T/P"; "S/L"]%string.

(** [t => t.time === item.time] *)
Definition sameTime (item t : PricePoint) : bool := (pp_time t =? pp_time item)%Z.

(** The filter of [uniqueTimes] at work on the rest [suf] of the array, the
    points [pre] being behind it. *)
Definition keptAfter (pre suf : list PricePoint) : list PricePoint :=
  filterIndexed
    (fun item index => (index =? findIndex (sameTime item) (pre ++ suf))%Z)
    (Z.of_nat (List.length pre)) suf.

(** Time order of the points, loose and strict. *)
Definition byPointTime (a b : PricePoint) : Prop := (pp_time a <= pp_time b)%Z.

Definition beforePoint (a b : PricePoint) : Prop := (pp_time a < pp_time b)%Z.

(** Two closes within one second, times in milliseconds. *)
Definition sameSecond : list Trade :=
  [row "2024.01.02 09:00:00" 1704186000000 "BUY" 1 1.1 0;
   row "2024.01.02 09:10:00" 1704186600200 "T/P" 1 1.105 50;
   row "2024.01.02 09:10:00" 1704186600700 "S/L" 1 1.104 (-20)].

(** The scenario with two of its bars, the later one first. *)
Definition backwardBars : BacktestData :=
  {| trades := trades scenario;
     marketData := Some [bar 915 1.105; bar 905 1.103] |}.


(* ================================================================== *)
(** * Properties *)

(* ------------------------------------------------------------------ *)
(** ** Comparisons and rounding *)

Lemma gtb_true (x y : Q) : JsNumber.gtb x y = true <-> y < x.
Proof.
  unfold JsNumber.gtb. rewrite negb_true_iff.
  split; intro H.
  - apply Qnot_le_lt. intro Hle. apply Qle_bool_iff in Hle. congruence.
  - destruct (Qle_bool x y) eqn:E; [|reflexivity].
    apply Qle_bool_iff in E. apply Qle_not_lt in E. contradiction.
Qed.

Lemma gtb_false (x y : Q) : JsNumber.gtb x y = false <-> x <= y.
Proof.
  unfold JsNumber.gtb. rewrite negb_false_iff. apply Qle_bool_iff.
Qed.

(* ------------------------------------------------------------------ *)
(** ** Orphan closes *)

(** C1, as the claim words it, fails: on the empty open-order object the
    close of realized P&L -20 leaves the accumulator at 0; it does not
    become -20. *)
Lemma orphan_close_pnl_is_dropped :
  openOrderMap initial = [] /\
  isClosedTrade orphanClose = true /\
  position (Analytics.applyTrade initial orphanClose) == 0 /\
  closedProfit (Analytics.applyTrade initial orphanClose) == 0 /\
  ~ closedProfit (Analytics.applyTrade initial orphanClose)
      == closedProfit initial + profitLoss orphanClose.
Proof.
  repeat split; try reflexivity.
  vm_compute. discriminate.
Qed.

(** C1, amended: a close trade (T/P or S/L) that meets an empty open-order
    object is tolerated and changes nothing at all: the net position, the
    object and the closed-P&L accumulator stay as they are, so its realized
    P&L is not added. *)
Theorem orphan_close_changes_nothing :
  forall (st : Position) (trade : Trade),
    openOrderMap st = [] ->
    isClosedTrade trade = true ->
    Analytics.applyTrade st trade = st.
Proof.
  intros st trade Hempty Hclose.
  unfold Analytics.applyTrade, applyTrade, isClosedTrade in *.
  destruct (JsString.toLowerCase (type trade) =? "buy")%string eqn:Eb.
  { apply String.eqb_eq in Eb. rewrite Eb in Hclose. discriminate. }
  destruct (JsString.toLowerCase (type trade) =? "sell")%string eqn:Es.
  { apply String.eqb_eq in Es. rewrite Es in Hclose. discriminate. }
  rewrite Hclose. unfold applyClose. rewrite Hempty. reflexivity.
Qed.

Lemma orphan_close_changes_nothing_witness :
  openOrderMap initial = [] /\
  isClosedTrade orphanClose = true /\
  Analytics.applyTrade initial orphanClose = initial.
Proof.
  split; [reflexivity|]. split; [reflexivity|].
  apply (orphan_close_changes_nothing initial orphanClose); reflexivity.
Defined.

(* ------------------------------------------------------------------ *)
(** ** Rows of a type the switch does not know *)

Lemma applyTrade_unrecognised (stopLabel : string) (st : Position) (trade : Trade) :
  let ty := JsString.toLowerCase (type trade) in
  ty <> "buy"%string -> ty <> "sell"%string -> ty <> "t/p"%string ->
  ty <> stopLabel ->
  applyTrade stopLabel st trade = st.
Proof.
  intros ty Hb Hs Ht Hl. unfold applyTrade. fold ty.
  apply String.eqb_neq in Hb, Hs, Ht, Hl.
  rewrite Hb, Hs, Ht, Hl. reflexivity.
Qed.

Lemma recognised_false (ty : string) :
  recognised ty = false ->
  ty <> "buy"%string /\ ty <> "sell"%string /\
  ty <> "t/p"%string /\ ty <> "s/l"%string.
Proof.
  unfold recognised. rewrite !orb_false_iff.
  intros [[[Hb Hs] Ht] Hl].
  repeat split; apply String.eqb_neq; assumption.
Qed.

(** C10.  A ledger row whose lowercased type is none of buy, sell, t/p and
    s/l leaves the position state as it is (net position, open-order object
    and closed P&L, its own realized P&L being ignored), and once its time is
    reached it is shifted off the ledger: from that bar on the replay
    proceeds as it would on the ledger without the row. *)
Theorem unrecognised_row_is_consumed_without_effect :
  forall (st : Position) (trade : Trade),
    recognised (JsString.toLowerCase (type trade)) = false ->
    Analytics.applyTrade st trade = st /\
    (forall (ts : Z) (rest : list Trade),
        (stamp trade <= ts)%Z ->
        Analytics.processTrades ts (trade :: rest) st
        = Analytics.processTrades ts rest st) /\
    (forall (data : MarketData) (bars : list MarketData) (rest : list Trade),
        (stamp trade <= timestamp data)%Z ->
        Analytics.mapMarketData (data :: bars) (trade :: rest) st
        = Analytics.mapMarketData (data :: bars) rest st).
Proof.
  intros st trade Hty.
  destruct (recognised_false _ Hty) as (Hb & Hs & Ht & Hl).
  assert (Hskip : Analytics.applyTrade st trade = st)
    by (apply applyTrade_unrecognised; assumption).
  assert (Hloop : forall ts rest, (stamp trade <= ts)%Z ->
            Analytics.processTrades ts (trade :: rest) st
            = Analytics.processTrades ts rest st).
  { intros ts rest Hdue. unfold Analytics.processTrades. simpl.
    apply Z.leb_le in Hdue. rewrite Hdue.
    unfold Analytics.applyTrade in Hskip. rewrite Hskip. reflexivity. }
  repeat split; try assumption.
  intros data bars rest Hdue.
  unfold Analytics.mapMarketData.
  cbn [mapMarketData].
  specialize (Hloop (timestamp data) rest Hdue).
  unfold Analytics.processTrades in Hloop. rewrite Hloop. reflexivity.
Qed.

Lemma unrecognised_row_is_consumed_without_effect_witness :
  recognised (JsString.toLowerCase (type depositRow)) = false /\
  Analytics.applyTrade initial depositRow = initial /\
  Analytics.processTrades 900 [depositRow; orphanClose] initial
  = Analytics.processTrades 900 [orphanClose] initial.
Proof.
  destruct (unrecognised_row_is_consumed_without_effect initial depositRow)
    as (Hst & Hloop & _).
  - reflexivity.
  - split; [reflexivity|]. split; [exact Hst|].
    apply Hloop. vm_compute. discriminate.
Defined.

(* ------------------------------------------------------------------ *)
(** ** The sort of the ledger *)

Lemma insertByTime_In (t x : Trade) (l : list Trade) :
  In x (insertByTime t l) <-> x = t \/ In x l.
Proof.
  induction l as [|y l IH]; simpl.
  - intuition congruence.
  - destruct (stamp t <=? stamp y)%Z; simpl; [intuition congruence|].
    rewrite IH. intuition congruence.
Qed.

Lemma sortTrades_In (x : Trade) (l : list Trade) :
  In x (sortTrades l) <-> In x l.
Proof.
  induction l as [|t l IH]; simpl; [tauto|].
  rewrite insertByTime_In, IH. intuition congruence.
Qed.

Lemma sortTrades_Forall (P : Trade -> Prop) (l : list Trade) :
  Forall P l -> Forall P (sortTrades l).
Proof.
  rewrite !Forall_forall. intros H x Hx. apply H, sortTrades_In, Hx.
Qed.

Lemma insertByTime_sorted (t : Trade) (l : list Trade) :
  StronglySorted byTime l -> StronglySorted byTime (insertByTime t l).
Proof.
  induction 1 as [|y l Hs IH Hy]; simpl.
  - repeat constructor.
  - destruct (stamp t <=? stamp y)%Z eqn:E.
    + apply Z.leb_le in E. constructor; [constructor; assumption|].
      constructor; [exact E|].
      eapply Forall_impl; [|exact Hy]. unfold byTime. intros; lia.
    + apply Z.leb_gt in E. constructor; [exact IH|].
      apply Forall_forall. intros x Hx. apply insertByTime_In in Hx.
      destruct Hx as [->|Hx]; [unfold byTime; lia|].
      rewrite Forall_forall in Hy. apply Hy, Hx.
Qed.

Lemma sortTrades_sorted (l : list Trade) : StronglySorted byTime (sortTrades l).
Proof.
  induction l as [|t l IH]; simpl; [constructor|].
  apply insertByTime_sorted, IH.
Qed.

(** The sort is stable, so a ledger that is in time order already comes back
    as it is. *)
Lemma sortTrades_of_sorted (l : list Trade) :
  StronglySorted byTime l -> sortTrades l = l.
Proof.
  induction 1 as [|t l Hs IH Ht]; simpl; [reflexivity|].
  rewrite IH. destruct l as [|y l']; [reflexivity|]. simpl.
  inversion Ht as [|? ? Hty _]; subst. unfold byTime in Hty.
  apply Z.leb_le in Hty. rewrite Hty. reflexivity.
Qed.

(* ------------------------------------------------------------------ *)
(** ** The two copies of the replay *)

Lemma applyTrade_same_off_labels (l1 l2 : string) (st : Position) (trade : Trade) :
  JsString.toLowerCase (type trade) <> l1 ->
  JsString.toLowerCase (type trade) <> l2 ->
  applyTrade l1 st trade = applyTrade l2 st trade.
Proof.
  intros H1 H2. unfold applyTrade.
  apply String.eqb_neq in H1, H2. rewrite H1, H2. reflexivity.
Qed.

Lemma processTrades_same_off_labels (l1 l2 : string) (ts : Z) (ledger : list Trade) :
  Forall (offLabels l1 l2) ledger ->
  forall st, processTrades l1 ts ledger st = processTrades l2 ts ledger st.
Proof.
  induction 1 as [|t ledger [H1 H2] Hall IH]; intro st; simpl; [reflexivity|].
  destruct (stamp t <=? ts)%Z; [|reflexivity].
  rewrite (applyTrade_same_off_labels l1 l2 st t H1 H2). apply IH.
Qed.

Lemma processTrades_rest_Forall (lbl : string) (P : Trade -> Prop) (ts : Z)
      (ledger : list Trade) :
  Forall P ledger ->
  forall st, Forall P (fst (processTrades lbl ts ledger st)).
Proof.
  induction 1 as [|t ledger Ht Hall IH]; intro st; simpl; [constructor|].
  destruct (stamp t <=? ts)%Z; [apply IH|].
  simpl. constructor; assumption.
Qed.

Lemma mapMarketData_same_off_labels (l1 l2 : string) (bars : list MarketData) :
  forall ledger st,
    Forall (offLabels l1 l2) ledger ->
    mapMarketData l1 bars ledger st = mapMarketData l2 bars ledger st.
Proof.
  induction bars as [|data bars IH]; intros ledger st Hall; simpl; [reflexivity|].
  rewrite <- (processTrades_same_off_labels l1 l2 _ _ Hall st).
  pose proof (processTrades_rest_Forall l1 _ (timestamp data) _ Hall st) as Hrest.
  destruct (processTrades l1 (timestamp data) ledger st) as [rest st'].
  simpl in Hrest. rewrite (IH rest st' Hrest). reflexivity.
Qed.

Lemma sharedType_offLabels (trade : Trade) :
  sharedType trade -> offLabels "s/l" "close at stop" trade.
Proof.
  unfold sharedType, offLabels. simpl.
  intros [H|[H|[H|[]]]]; rewrite <- H; split; discriminate.
Qed.

(** C9.  On every ledger whose types are only buy, sell or t/p in any
    letter case, and on every price series, the two copies of the replay
    return the same rows; and on a single ledger row the two switches can
    differ only when its lowercased type is s/l or close at stop. *)
Theorem copies_agree_on_shared_types :
  (forall (b : BacktestData),
      Forall sharedType (trades b) ->
      Analytics.periodData (Some b) = AnalyticsTable.periodData (Some b)) /\
  (forall (st : Position) (trade : Trade),
      JsString.toLowerCase (type trade) <> "s/l"%string ->
      JsString.toLowerCase (type trade) <> "close at stop"%string ->
      Analytics.applyTrade st trade = AnalyticsTable.applyTrade st trade).
Proof.
  split.
  - intros b Hall.
    unfold Analytics.periodData, AnalyticsTable.periodData, periodData.
    destruct (marketData b) as [bars|]; [|reflexivity].
    apply mapMarketData_same_off_labels, sortTrades_Forall.
    eapply Forall_impl; [|exact Hall]. apply sharedType_offLabels.
  - intros st trade H1 H2. apply applyTrade_same_off_labels; assumption.
Qed.

Lemma copies_agree_on_shared_types_witness :
  Forall sharedType (trades scenario) /\
  Analytics.periodData (Some scenario) = AnalyticsTable.periodData (Some scenario).
Proof.
  assert (H : Forall sharedType (trades scenario))
    by (repeat constructor; vm_compute; tauto).
  split; [exact H|].
  destruct copies_agree_on_shared_types as [Hrows _].
  apply (Hrows scenario H).
Defined.

(** Where the copies part: after one buy, a row of type S/L closes the lot
    in the chart component and is skipped by the table component, and a row
    of type Close at stop does the reverse. *)
Lemma copies_differ_on_stop_labels :
  let st := Analytics.applyTrade initial (row "2024.01.02 09:00" 900 "buy" 1 1.1 0) in
  let sl := row "2024.01.02 09:10" 910 "S/L" 1 1.09 (-100) in
  let cas := row "2024.01.02 09:10" 910 "Close at stop" 1 1.09 (-100) in
  openOrderMap (Analytics.applyTrade st sl) = [] /\
  AnalyticsTable.applyTrade st sl = st /\
  Analytics.applyTrade st cas = st /\
  openOrderMap (AnalyticsTable.applyTrade st cas) = [].
Proof.
  repeat split.
Qed.

(* ------------------------------------------------------------------ *)
(** ** The open-order object *)

Lemma has_false_iff {V : Type} (k : string) (o : JsObject.t V) :
  JsObject.has k o = false <-> ~ In k (JsObject.keys o).
Proof.
  unfold JsObject.has.
  induction o as [|[k' v] o IH]; simpl; [tauto|].
  destruct (k' =? k)%string eqn:E.
  - apply String.eqb_eq in E. split; [discriminate|]. intros H. elim H. auto.
  - apply String.eqb_neq in E. rewrite IH. tauto.
Qed.


Lemma delete_absent {V : Type} (k : string) (o : JsObject.t V) :
  ~ In k (JsObject.keys o) -> JsObject.delete k o = o.
Proof.
  unfold JsObject.delete.
  induction o as [|[k' v] o IH]; simpl; intro H; [reflexivity|].
  destruct (k' =? k)%string eqn:E.
  - apply String.eqb_eq in E. elim H. auto.
  - simpl. f_equal. apply IH. tauto.
Qed.

Lemma delete_head {V : Type} (k : string) (v : V) (o : JsObject.t V) :
  ~ In k (JsObject.keys o) -> JsObject.delete k ((k, v) :: o) = o.
Proof.
  intro H. unfold JsObject.delete. simpl. rewrite String.eqb_refl. simpl.
  apply (delete_absent k o H).
Qed.




Lemma keys_replace {V : Type} (k : string) (v : V) (o : JsObject.t V) :
  JsObject.keys (JsObject.replace k v o) = JsObject.keys o.
Proof.
  induction o as [|[k' v'] o IH]; simpl; [reflexivity|].
  destruct (k' =? k)%string eqn:E; simpl.
  - apply String.eqb_eq in E. subst k'. reflexivity.
  - rewrite IH. reflexivity.
Qed.




(* ------------------------------------------------------------------ *)
(** ** First in, first out *)


Lemma applyTrade_close (st : Position) (t : Trade) :
  isClosedTrade t = true -> Analytics.applyTrade st t = applyClose st t.
Proof.
  unfold isClosedTrade, Analytics.applyTrade, applyTrade. intro H.
  destruct (JsString.toLowerCase (type t) =? "buy")%string eqn:Eb.
  { apply String.eqb_eq in Eb. rewrite Eb in H. discriminate. }
  destruct (JsString.toLowerCase (type t) =? "sell")%string eqn:Es.
  { apply String.eqb_eq in Es. rewrite Es in H. discriminate. }
  rewrite H. reflexivity.
Qed.












(* ------------------------------------------------------------------ *)
(** ** The average entry price *)



(** *** On binary64 numbers *)

Lemma SFcompare_antisym (a b : spec_float) :
  SFcompare a b = option_map CompOpp (SFcompare b a).
Proof.
  destruct a as [sa|sa| |sa ma ea], b as [sb|sb| |sb mb eb]; simpl;
    try reflexivity;
    try (destruct sa; reflexivity); try (destruct sb; reflexivity);
    try (destruct sa, sb; reflexivity).
  destruct sa, sb; try reflexivity.
  - rewrite (Z.compare_antisym eb ea).
    destruct (eb ?= ea)%Z; simpl; try reflexivity.
    rewrite (Pos.compare_cont_antisym mb ma Eq). reflexivity.
  - rewrite (Z.compare_antisym eb ea).
    destruct (eb ?= ea)%Z; simpl; try reflexivity.
    rewrite (Pos.compare_cont_antisym mb ma Eq). reflexivity.
Qed.

Lemma SFcompare_none (a b : spec_float) :
  SFcompare a b = None <-> a = S754_nan \/ b = S754_nan.
Proof.
  destruct a as [sa|sa| |sa ma ea], b as [sb|sb| |sb mb eb]; simpl;
    split; intro H; try discriminate; try tauto;
    try (destruct H; discriminate).
Qed.

Lemma SFcompare_refl (a : spec_float) :
  a <> S754_nan -> SFcompare a a = Some Eq.
Proof.
  destruct a as [s|s| |s m e]; simpl; intro H; try reflexivity.
  - destruct s; reflexivity.
  - congruence.
  - rewrite Z.compare_refl.
    assert (Hm : Pos.compare_cont Eq m m = Eq) by apply Pos.compare_cont_refl.
    rewrite Hm. destruct s; reflexivity.
Qed.

Lemma is_nan_spec (x : float) :
  PrimFloat.is_nan x = true <-> Prim2SF x = S754_nan.
Proof.
  unfold PrimFloat.is_nan. rewrite eqb_spec. unfold SFeqb. split.
  - intro H. destruct (Prim2SF x) eqn:E; try reflexivity;
      rewrite SFcompare_refl in H by discriminate; discriminate.
  - intros ->. reflexivity.
Qed.

Lemma is_nan_abs (x : float) : PrimFloat.is_nan (abs x) = PrimFloat.is_nan x.
Proof.
  apply eq_true_iff_eq. rewrite !is_nan_spec, abs_spec.
  destruct (Prim2SF x); simpl; split; intro H; try discriminate; reflexivity.
Qed.

(** [x > y] fails exactly when [x <= y] holds or one of the two is no
    number. *)
Lemma double_gtb_false (x y : float) :
  JsDouble.gtb x y = false
  <-> (x <=? y)%float = true \/ PrimFloat.is_nan x = true
      \/ PrimFloat.is_nan y = true.
Proof.
  unfold JsDouble.gtb. rewrite ltb_spec, leb_spec, !is_nan_spec.
  unfold SFltb, SFleb. rewrite (SFcompare_antisym (Prim2SF y) (Prim2SF x)).
  pose proof (SFcompare_none (Prim2SF x) (Prim2SF y)) as Hn.
  destruct (SFcompare (Prim2SF x) (Prim2SF y)) as [[| |]|]; simpl; split; intro H;
    try reflexivity; try discriminate; try tauto.
  destruct H as [H|H]; [discriminate|]. apply Hn in H. discriminate.
Qed.

Lemma double_gtb_true_numbers (x y : float) :
  JsDouble.gtb x y = true ->
  PrimFloat.is_nan x = false /\ PrimFloat.is_nan y = false.
Proof.
  intro H. destruct (PrimFloat.is_nan x) eqn:Ex.
  - assert (Hf : JsDouble.gtb x y = false) by (apply double_gtb_false; tauto).
    congruence.
  - destruct (PrimFloat.is_nan y) eqn:Ey; [|tauto].
    assert (Hf : JsDouble.gtb x y = false) by (apply double_gtb_false; tauto).
    congruence.
Qed.

(** The one loop over the values accumulates the two sums side by side. *)
Lemma fold_two_sums (vs : list (float * float)) :
  forall a b : float,
    fold_left (fun '(sumLots, sumPL) '(lots, price) =>
                 (sumLots + lots, sumPL + lots * price)%float) vs (a, b)
    = (fold_left PrimFloat.add (map fst vs) a,
       fold_left PrimFloat.add (map (fun lp => fst lp * snd lp)%float vs) b).
Proof.
  induction vs as [|[l p] vs IH]; intros a b; simpl; [reflexivity|].
  apply IH.
Qed.

Lemma aep64_by_cases (orders : JsObject.t (float * float)) :
  Binary64.calculateAverageEntryPrice orders
  = if JsDouble.gtb (abs (netLots64 orders)) 0.001
    then weightedMean64 orders else 0%float.
Proof.
  unfold Binary64.calculateAverageEntryPrice, weightedMean64, netLots64,
    weightedPrices64, sum64, JsObject.values.
  rewrite fold_two_sums, !map_map. reflexivity.
Qed.

(** C5, as the claim words it, fails on the edge of the band: a single open
    lot of 0.001 at 1.5 has a net position that is not below 0.001, and its
    weighted mean is 1.5, yet the function returns 0. *)
Lemma aep_is_zero_on_the_band_edge :
  (abs (netLots64 thinLot) <? 0.001)%float = false /\
  weightedMean64 thinLot = 1.5%float /\
  Binary64.calculateAverageEntryPrice thinLot = 0%float /\
  (Binary64.calculateAverageEntryPrice thinLot =? weightedMean64 thinLot)%float
  = false.
Proof.
  repeat split; vm_compute; reflexivity.
Qed.

(** The band is met as binary64 numbers meet it: the sizes 0.001962 and
    -0.000962 add up to 0.001 as decimals, but to a number above the literal
    0.001 as they are added in the loop, and the mean is returned. *)
Lemma aep_of_sizes_that_round_above_the_edge :
  JsDouble.gtb (abs (netLots64 edgeLots)) 0.001 = true /\
  Binary64.calculateAverageEntryPrice edgeLots = weightedMean64 edgeLots /\
  (Binary64.calculateAverageEntryPrice edgeLots =? 0)%float = false.
Proof.
  repeat split; vm_compute; reflexivity.
Qed.

(** C5, amended: the function returns the mean of the entry prices weighted
    by the signed lots whenever the absolute sum of the signed lots is above
    0.001, and 0 whenever it is at most 0.001, the edge included, or is no
    number; one of the three is always the case.  Sums, products, the
    quotient and the comparison are those of binary64 numbers, the sums
    taken in the order of the entries. *)
Theorem aep_is_weighted_mean_outside_band :
  forall orders : JsObject.t (float * float),
    (JsDouble.gtb (abs (netLots64 orders)) 0.001 = true ->
     Binary64.calculateAverageEntryPrice orders = weightedMean64 orders) /\
    ((abs (netLots64 orders) <=? 0.001)%float = true ->
     Binary64.calculateAverageEntryPrice orders = 0%float) /\
    (PrimFloat.is_nan (netLots64 orders) = true ->
     Binary64.calculateAverageEntryPrice orders = 0%float) /\
    (JsDouble.gtb (abs (netLots64 orders)) 0.001 = true \/
     (abs (netLots64 orders) <=? 0.001)%float = true \/
     PrimFloat.is_nan (netLots64 orders) = true).
Proof.
  intro orders. rewrite aep64_by_cases.
  pose proof (double_gtb_false (abs (netLots64 orders)) 0.001) as Hf.
  rewrite is_nan_abs in Hf.
  assert (Hc : PrimFloat.is_nan 0.001 = false) by reflexivity.
  destruct (JsDouble.gtb (abs (netLots64 orders)) 0.001) eqn:E.
  - apply double_gtb_true_numbers in E as Hn. rewrite is_nan_abs in Hn.
    destruct Hn as [Hn _].
    split; [reflexivity|]. split; [|split; [|left; reflexivity]].
    + intro Hle. assert (Habs : true = false); [|discriminate Habs].
      apply Hf. left. exact Hle.
    + intro Hnan. congruence.
  - split; [discriminate|]. split; [reflexivity|]. split; [reflexivity|].
    right. destruct (proj1 Hf eq_refl) as [H|[H|H]]; [tauto|tauto|congruence].
Qed.

Lemma aep_is_weighted_mean_outside_band_witness :
  (abs (netLots64 thinLot) <=? 0.001)%float = true /\
  Binary64.calculateAverageEntryPrice thinLot = 0%float /\
  JsDouble.gtb (abs (netLots64 twoLots)) 0.001 = true /\
  Binary64.calculateAverageEntryPrice twoLots = weightedMean64 twoLots.
Proof.
  assert (H1 : (abs (netLots64 thinLot) <=? 0.001)%float = true)
    by reflexivity.
  assert (H2 : JsDouble.gtb (abs (netLots64 twoLots)) 0.001 = true)
    by reflexivity.
  destruct (aep_is_weighted_mean_outside_band thinLot) as (_ & Hle & _).
  destruct (aep_is_weighted_mean_outside_band twoLots) as (Hgt & _).
  split; [exact H1|]. split; [exact (Hle H1)|].
  split; [exact H2|]. exact (Hgt H2).
Defined.

(* ------------------------------------------------------------------ *)
(** ** The net position lies on the grid of hundredths *)

Lemma hundredths_offBandEdge (n : Z) :
  offBandEdge (inject_Z n / inject_Z (JsNumber.pow10 2)).
Proof.
  change (JsNumber.pow10 2) with 100%Z.
  destruct (Z.eq_dec n 0) as [->|Hn].
  - left. reflexivity.
  - right.
    assert (Heq : inject_Z n / inject_Z 100 == n # 100).
    { unfold Qeq, Qdiv, Qmult, Qinv, inject_Z. simpl. lia. }
    rewrite Heq. unfold Qle. simpl. lia.
Qed.

Lemma offBandEdge_opp (q : Q) : offBandEdge q -> offBandEdge (- q).
Proof.
  intros [H|H]; [left|right].
  - rewrite H. reflexivity.
  - rewrite Qabs_opp. exact H.
Qed.

Lemma toFixedNumber_offBandEdge (x : Q) :
  offBandEdge (JsNumber.toFixedNumber 2 x).
Proof.
  unfold JsNumber.toFixedNumber.
  destruct (Qle_bool (inject_Z (10 ^ 21)) (Qabs x)) eqn:E.
  - right. apply Qle_bool_iff in E.
    eapply Qle_trans; [|exact E]. discriminate.
  - destruct (JsNumber.ltb x 0).
    + apply offBandEdge_opp, hundredths_offBandEdge.
    + apply hundredths_offBandEdge.
Qed.

Section Reachable.

Variable stopLabel : string.

Lemma applyTrade_position (st : Position) (t : Trade) :
  position (applyTrade stopLabel st t) = position st \/
  exists x, position (applyTrade stopLabel st t) = JsNumber.toFixedNumber 2 x.
Proof.
  unfold applyTrade, applyBuy, applySell, applyClose.
  destruct (_ =? "buy")%string; [right; eexists; reflexivity|].
  destruct (_ =? "sell")%string; [right; eexists; reflexivity|].
  destruct (_ || _); [|left; reflexivity].
  destruct (openOrderMap st) as [|[k [l p]] rest]; [left; reflexivity|].
  destruct (JsString.truthy k); [right; eexists; reflexivity|left; reflexivity].
Qed.

Lemma fold_position_offBandEdge (ledger : list Trade) :
  forall st, offBandEdge (position st) ->
             offBandEdge (position (fold_left (applyTrade stopLabel) ledger st)).
Proof.
  induction ledger as [|t ledger IH]; intros st Hst; simpl; [exact Hst|].
  apply IH.
  destruct (applyTrade_position st t) as [H|[x H]]; rewrite H.
  - exact Hst.
  - apply toFixedNumber_offBandEdge.
Qed.

Lemma after_offBandEdge (ledger : list Trade) :
  offBandEdge (position (after stopLabel ledger)).
Proof.
  apply fold_position_offBandEdge. left. reflexivity.
Qed.

(** The loop of a bar takes a prefix of the ledger and leaves the rest. *)
Lemma processTrades_prefix (ts : Z) (ledger : list Trade) :
  forall st, exists k,
    processTrades stopLabel ts ledger st
    = (skipn k ledger, fold_left (applyTrade stopLabel) (firstn k ledger) st).
Proof.
  induction ledger as [|t ledger IH]; intro st; simpl.
  - exists 0%nat. reflexivity.
  - destruct (stamp t <=? ts)%Z.
    + destruct (IH (applyTrade stopLabel st t)) as [k Hk].
      exists (S k). exact Hk.
    + exists 0%nat. reflexivity.
Qed.

Lemma firstn_plus {A : Type} (k k' : nat) (l : list A) :
  firstn (k + k') l = firstn k l ++ firstn k' (skipn k l).
Proof.
  revert l. induction k as [|k IH]; intro l; simpl; [reflexivity|].
  destruct l as [|x l]; simpl.
  - rewrite firstn_nil. reflexivity.
  - rewrite IH. reflexivity.
Qed.

Lemma skipn_plus {A : Type} (k k' : nat) (l : list A) :
  skipn (k + k') l = skipn k' (skipn k l).
Proof.
  revert l. induction k as [|k IH]; intro l; simpl; [reflexivity|].
  destruct l as [|x l]; simpl; [rewrite skipn_nil; reflexivity|apply IH].
Qed.

(** Every row is the valuation of its bar in the state some prefix of the
    ledger leads to. *)
Lemma mapMarketData_rows (ledger : list Trade) (bars : list MarketData) :
  forall k,
    Forall2 (fun data r => exists k', r = periodOf (after stopLabel (firstn k' ledger)) data)
            bars
            (mapMarketData stopLabel bars (skipn k ledger) (after stopLabel (firstn k ledger))).
Proof.
  induction bars as [|data bars IH]; intro k; simpl; [constructor|].
  destruct (processTrades_prefix (timestamp data) (skipn k ledger)
              (after stopLabel (firstn k ledger))) as [k' Hk'].
  rewrite Hk'.
  assert (Hst : fold_left (applyTrade stopLabel) (firstn k' (skipn k ledger))
                          (after stopLabel (firstn k ledger))
                = after stopLabel (firstn (k + k') ledger)).
  { unfold after. rewrite firstn_plus, fold_left_app. reflexivity. }
  rewrite Hst, <- skipn_plus. constructor.
  - exists (k + k')%nat. reflexivity.
  - apply IH.
Qed.

End Reachable.

(** C6.  In every state the replay reaches, the floating P&L of a bar is 0
    when the absolute net position is below 0.001 and is otherwise
    (close - average entry price) * net position * 100000 / conversionFx; and
    every row the replay returns is the valuation of its bar in such a state,
    its [open] figure being this floating P&L rounded to cents. *)
Theorem floating_pnl_of_every_bar :
  forall (b : BacktestData) (bars : list MarketData),
    marketData b = Some bars ->
    (forall (ledger : list Trade) (data : MarketData),
        let st := after "s/l" ledger in
        (Qabs (position st) < 0.001 -> floating st data = 0) /\
        (~ Qabs (position st) < 0.001 ->
         floating st data
         = ((close data - calculateAverageEntryPrice (openOrderMap st))
            * position st * 100000) / conversionFx data)) /\
    Forall2 (fun data r =>
               exists k,
                 let st := after "s/l" (firstn k (sortTrades (trades b))) in
                 r = periodOf st data /\
                 pd_open r = JsNumber.toFixedNumber 2 (floating st data))
            bars (Analytics.periodData (Some b)).
Proof.
  intros b bars Hbars. split.
  - intros ledger data st. unfold floating.
    pose proof (after_offBandEdge "s/l" ledger) as Hgrid. fold st in Hgrid.
    destruct (JsNumber.gtb (Qabs (position st)) 0.001) eqn:E.
    + apply gtb_true in E. split; [|reflexivity].
      intro Hlt. exfalso. apply (Qlt_irrefl 0.001).
      eapply Qlt_trans; [exact E|exact Hlt].
    + apply gtb_false in E. split; [reflexivity|].
      intro Hnlt. exfalso. destruct Hgrid as [Hz|Hbig].
      * apply Hnlt. rewrite Hz. reflexivity.
      * apply (Qle_not_lt _ _ (Qle_trans _ _ _ Hbig E)). reflexivity.
  - unfold Analytics.periodData, periodData. rewrite Hbars.
    pose proof (mapMarketData_rows "s/l" (sortTrades (trades b)) bars 0) as H.
    simpl in H. 
    eapply Forall2_impl; [|exact H].
    intros data r [k Hr]. exists k. subst r. split; reflexivity.
Qed.

Lemma floating_pnl_of_every_bar_witness :
  marketData scenario = Some [bar 900 1.1; bar 905 1.103; bar 910 1.105; bar 915 1.105] /\
  floating (after "s/l" (trades scenario)) (bar 915 1.105) = 0 /\
  floating (after "s/l" (firstn 1 (trades scenario))) (bar 905 1.103) == 300.
Proof.
  split; [reflexivity|].
  destruct (floating_pnl_of_every_bar scenario _ eq_refl) as [Hf _].
  split.
  - apply (Hf (trades scenario) (bar 915 1.105)). reflexivity.
  - rewrite (proj2 (Hf (firstn 1 (trades scenario)) (bar 905 1.103))).
    + reflexivity.
    + vm_compute. discriminate.
Defined.

(* ------------------------------------------------------------------ *)
(** ** The win rate *)

Lemma length_filter_countIf {A : Type} (p : A -> bool) (l : list A) :
  List.length (filter p l) = countIf p l.
Proof.
  induction l as [|x l IH]; simpl; [reflexivity|].
  destruct (p x); simpl; rewrite IH; reflexivity.
Qed.

Lemma filter_filter_countIf {A : Type} (p q : A -> bool) (l : list A) :
  List.length (filter q (filter p l)) = countIf (fun x => p x && q x) l.
Proof.
  induction l as [|x l IH]; simpl; [reflexivity|].
  destruct (p x); simpl; [|exact IH].
  destruct (q x); simpl; rewrite IH; reflexivity.
Qed.

Lemma countIf_and_le {A : Type} (p q : A -> bool) (l : list A) :
  (countIf (fun x => p x && q x) l <= countIf p l)%nat.
Proof.
  induction l as [|x l IH]; simpl; [lia|].
  destruct (p x), (q x); simpl; lia.
Qed.

(** *** Whole numbers, quotients and products in binary64

    Rounding to the nearest never turns a number into [NaN], nor changes
    its sign; and a whole number below 2^53 is a binary64 number. *)

Lemma shr_1_nonneg (mrs : shr_record) :
  (0 <= shr_m mrs)%Z -> (0 <= shr_m (shr_1 mrs))%Z.
Proof.
  destruct mrs as [m r s]. simpl.
  destruct m as [|[p|p|]|[p|p|]]; simpl; lia.
Qed.

Lemma iter_pos_keeps {A : Type} (P : A -> Prop) (f : A -> A) :
  (forall x, P x -> P (f x)) -> forall n x, P x -> P (iter_pos f n x).
Proof.
  intro Hf. induction n as [n IH|n IH|]; intros x Hx; simpl; auto.
Qed.

Lemma shr_nonneg (mrs : shr_record) (e n : Z) :
  (0 <= shr_m mrs)%Z -> (0 <= shr_m (fst (shr mrs e n)))%Z.
Proof.
  intro H. unfold shr. destruct n as [|p|p]; simpl; try exact H.
  apply (iter_pos_keeps (fun r => (0 <= shr_m r)%Z));
    [apply shr_1_nonneg|exact H].
Qed.

Lemma shr_record_of_loc_m (m : Z) (l : location) :
  shr_m (shr_record_of_loc m l) = m.
Proof. destruct l as [|[| |]]; reflexivity. Qed.

Lemma shr_fexp_nonneg (m e : Z) (l : location) :
  (0 <= m)%Z -> (0 <= shr_m (fst (shr_fexp prec emax m e l)))%Z.
Proof.
  intro H. unfold shr_fexp. apply shr_nonneg.
  rewrite shr_record_of_loc_m. exact H.
Qed.

Lemma round_nearest_even_nonneg (m : Z) (l : location) :
  (0 <= m)%Z -> (0 <= round_nearest_even m l)%Z.
Proof.
  intro H. destruct l as [|[| |]]; simpl; try lia.
  destruct (Z.even m); lia.
Qed.

Lemma binary_round_aux_signed (s : bool) (m e : Z) (l : location) :
  (0 <= m)%Z -> signedNumber s (binary_round_aux prec emax s m e l).
Proof.
  intro H. unfold binary_round_aux.
  pose proof (shr_fexp_nonneg m e l H) as H1.
  destruct (shr_fexp prec emax m e l) as [mrs' e'].
  simpl in H1.
  pose proof (shr_fexp_nonneg _ e' loc_Exact
                (round_nearest_even_nonneg _ (loc_of_shr_record mrs') H1)) as H2.
  destruct (shr_fexp prec emax _ e' loc_Exact) as [mrs'' e''].
  simpl in H2.
  destruct (shr_m mrs'') as [|p|p]; [reflexivity| |lia].
  destruct (e'' <=? emax - prec)%Z; reflexivity.
Qed.

Lemma digits2_pos_lower (p : positive) :
  (2 ^ (Z.pos (digits2_pos p) - 1) <= Z.pos p)%Z.
Proof.
  induction p as [p IH|p IH|]; cbn [digits2_pos].
  - rewrite Pos2Z.inj_succ.
    replace (Z.succ (Z.pos (digits2_pos p)) - 1)%Z
      with (Z.succ (Z.pos (digits2_pos p) - 1)) by lia.
    rewrite Z.pow_succ_r by lia. lia.
  - rewrite Pos2Z.inj_succ.
    replace (Z.succ (Z.pos (digits2_pos p)) - 1)%Z
      with (Z.succ (Z.pos (digits2_pos p) - 1)) by lia.
    rewrite Z.pow_succ_r by lia. lia.
  - reflexivity.
Qed.

Lemma digits2_pos_le (p : positive) (k : Z) :
  (0 <= k)%Z -> (Z.pos p < 2 ^ k)%Z -> (Z.pos (digits2_pos p) <= k)%Z.
Proof.
  intros Hk Hp. pose proof (digits2_pos_lower p) as Hl.
  destruct (Z_le_gt_dec (Z.pos (digits2_pos p)) k) as [H|H]; [exact H|].
  exfalso.
  assert (2 ^ k <= 2 ^ (Z.pos (digits2_pos p) - 1))%Z
    by (apply Z.pow_le_mono_r; lia).
  lia.
Qed.

Lemma digits2_pos_iter_xO (p k : positive) :
  Z.pos (digits2_pos (Pos.iter xO p k))
  = (Z.pos (digits2_pos p) + Z.pos k)%Z.
Proof.
  induction k as [|k IH] using Pos.peano_ind.
  - simpl. lia.
  - rewrite Pos.iter_succ. cbn [digits2_pos]. lia.
Qed.

(** A mantissa of 53 digits with an exponent in range is kept as it is. *)
Lemma binary_round_aux_canonical (s : bool) (m : positive) (e : Z) :
  Z.pos (digits2_pos m) = prec -> (-1074 <= e <= 971)%Z ->
  binary_round_aux prec emax s (Z.pos m) e loc_Exact = S754_finite s m e.
Proof.
  intros Hd He. unfold binary_round_aux, shr_fexp, fexp.
  cbn [Zdigits2]. rewrite Hd.
  replace (Z.max (prec + e - prec) (emin) - e)%Z with 0%Z
    by (unfold prec, SpecFloat.emin, emax; lia).
  cbn [shr shr_record_of_loc shr_m loc_of_shr_record round_nearest_even Zdigits2].
  rewrite Hd.
  replace (Z.max (prec + e - prec) (emin) - e)%Z with 0%Z
    by (unfold prec, SpecFloat.emin, emax; lia).
  cbn [shr shr_m].
  replace (e <=? emax - prec)%Z with true; [reflexivity|].
  symmetry. apply Z.leb_le. unfold emax, prec. lia.
Qed.

Lemma binary_round_whole (p : positive) :
  (Z.pos p < 2 ^ 53)%Z ->
  exists m e, binary_round prec emax false p 0 = S754_finite false m e.
Proof.
  intro Hp. pose proof (digits2_pos_le p 53 ltac:(lia) Hp) as Hd.
  unfold binary_round, shl_align, fexp.
  replace (Z.max (Z.pos (digits2_pos p) + 0 - prec) emin - 0)%Z
    with (Z.pos (digits2_pos p) - 53)%Z
    by (unfold prec, SpecFloat.emin, emax; lia).
  replace (Z.max (Z.pos (digits2_pos p) + 0 - prec) emin)%Z
    with (Z.pos (digits2_pos p) - 53)%Z
    by (unfold prec, SpecFloat.emin, emax; lia).
  destruct (Z.pos (digits2_pos p) - 53)%Z as [|k|k] eqn:E; try lia.
  - exists p, 0%Z. apply binary_round_aux_canonical; [|lia]. unfold prec. lia.
  - exists (Pos.iter xO p k), (Z.neg k).
    apply binary_round_aux_canonical.
    + rewrite digits2_pos_iter_xO. unfold prec. lia.
    + lia.
Qed.

Lemma ofNat_finite (n : nat) :
  (0 < n)%nat -> (Z.of_nat n < 2 ^ 53)%Z ->
  exists m e, Prim2SF (JsDouble.ofNat n) = S754_finite false m e.
Proof.
  intros Hpos Hlt. unfold JsDouble.ofNat. rewrite of_uint63_spec.
  assert (Hz : Uint63Axioms.to_Z (Uint63.of_Z (Z.of_nat n)) = Z.of_nat n).
  { rewrite Uint63.of_Z_spec. apply Z.mod_small. split; [lia|].
    eapply Z.lt_trans; [exact Hlt|]. reflexivity. }
  rewrite Hz. destruct (Z.of_nat n) as [|p|p] eqn:E; try lia.
  cbn [binary_normalize]. apply binary_round_whole. exact Hlt.
Qed.

Lemma SFdiv_whole (x y : spec_float) :
  (x = S754_zero false \/ exists m e, x = S754_finite false m e) ->
  (exists m e, y = S754_finite false m e) ->
  signedNumber false (SF64div x y).
Proof.
  intros [->|(mx & ex & ->)] (my & ey & ->); unfold SF64div, SFdiv.
  - reflexivity.
  - destruct (SFdiv_core_binary prec emax (Z.pos mx) ex (Z.pos my) ey)
      as [[q e] l] eqn:E.
    apply (binary_round_aux_signed false).
    unfold SFdiv_core_binary in E.
    set (s := (_ - _ - _)%Z) in E.
    set (m' := match s with Z0 => _ | Z.pos _ => _ | Z.neg _ => _ end) in E.
    assert (Hm : (0 <= m')%Z).
    { subst m'. destruct s; [lia| |lia]. apply Z.shiftl_nonneg. lia. }
    pose proof (Z_div_mod m' (Z.pos my) ltac:(lia)) as Hdm.
    destruct (Z.div_eucl m' (Z.pos my)) as [q' r'].
    injection E as <- _ _. nia.
Qed.

Lemma SFmul_whole (x y : spec_float) :
  signedNumber false x -> (exists m e, y = S754_finite false m e) ->
  signedNumber false (SF64mul x y).
Proof.
  intros Hx (my & ey & ->). unfold SF64mul, SFmul.
  destruct x as [s|s| |s m e]; simpl in Hx; subst; try reflexivity;
    [contradiction|].
  apply (binary_round_aux_signed false). lia.
Qed.

Lemma signedNumber_false (x : float) :
  signedNumber false (Prim2SF x) ->
  PrimFloat.is_nan x = false /\ (0 <=? x)%float = true.
Proof.
  intro H. split.
  - destruct (PrimFloat.is_nan x) eqn:E; [|reflexivity].
    apply is_nan_spec in E. rewrite E in H. contradiction.
  - rewrite leb_spec. change (Prim2SF 0) with (S754_zero false).
    destruct (Prim2SF x) as [s|s| |s m e]; simpl in H; subst;
      try reflexivity; contradiction.
Qed.

(** The rate of [w] in [t], in percent, is a number and is not negative. *)
Lemma rate_is_a_number (w t : nat) :
  (0 < t)%nat -> (Z.of_nat w < 2 ^ 53)%Z -> (Z.of_nat t < 2 ^ 53)%Z ->
  PrimFloat.is_nan (JsDouble.ofNat w / JsDouble.ofNat t * 100)%float = false /\
  (0 <=? JsDouble.ofNat w / JsDouble.ofNat t * 100)%float = true.
Proof.
  intros Ht Hw Htb. apply signedNumber_false. rewrite mul_spec, div_spec.
  apply SFmul_whole.
  - apply SFdiv_whole.
    + destruct w as [|w]; [left; reflexivity|right].
      apply ofNat_finite; [lia|exact Hw].
    + apply ofNat_finite; assumption.
  - vm_compute. eexists. eexists. reflexivity.
Qed.

(** *** The closed trades *)

Lemma lowerChar_cases (c : ascii) :
  ((JsString.lowerChar c =? "t")%char = ((c =? "t") || (c =? "T"))%char) /\
  ((JsString.lowerChar c =? "p")%char = ((c =? "p") || (c =? "P"))%char) /\
  ((JsString.lowerChar c =? "s")%char = ((c =? "s") || (c =? "S"))%char) /\
  ((JsString.lowerChar c =? "l")%char = ((c =? "l") || (c =? "L"))%char) /\
  ((JsString.lowerChar c =? "/")%char = (c =? "/")%char).
Proof.
  destruct c as [[] [] [] [] [] [] [] []]; vm_compute; repeat split.
Qed.

Ltac by_chars :=
  cbn [JsString.toLowerCase String.eqb existsb];
  repeat match goal with
         | |- context [Ascii.eqb ?a ?b] => destruct (Ascii.eqb a b)
         end;
  reflexivity.

(** The test of the filter, which lowers the type and compares, picks the
    rows whose type is one of the ways of writing T/P and S/L. *)
Lemma isClosedTrade_kind (t : Trade) : isClosedTrade t = ofCloseKind t.
Proof.
  unfold isClosedTrade, ofCloseKind, closeLabels.
  destruct (type t) as [|c1 [|c2 [|c3 [|c4 s]]]];
    [reflexivity|by_chars|by_chars| |by_chars].
  cbn [JsString.toLowerCase String.eqb existsb].
  destruct (lowerChar_cases c1) as (-> & _ & -> & _ & _).
  destruct (lowerChar_cases c2) as (_ & _ & _ & _ & ->).
  destruct (lowerChar_cases c3) as (_ & -> & _ & -> & _).
  destruct (c1 =? "t")%char, (c1 =? "T")%char, (c1 =? "s")%char, (c1 =? "S")%char,
    (c2 =? "/")%char, (c3 =? "p")%char, (c3 =? "P")%char, (c3 =? "l")%char,
    (c3 =? "L")%char; reflexivity.
Qed.

Lemma closedTrades_ofKind (ts : list Trade) :
  List.length (closedTrades ts) = closedOfKind ts.
Proof.
  unfold closedTrades, closedOfKind. rewrite length_filter_countIf.
  induction ts as [|t ts IH]; simpl; [reflexivity|].
  rewrite IH, isClosedTrade_kind. reflexivity.
Qed.

Lemma winningTrades_ofKind (ts : list Trade) :
  winningTrades ts = winningOfKind ts.
Proof.
  unfold winningTrades, closedTrades, winningOfKind.
  rewrite filter_filter_countIf.
  induction ts as [|t ts IH]; simpl; [reflexivity|].
  rewrite IH, isClosedTrade_kind. reflexivity.
Qed.

Lemma countIf_le_length {A : Type} (p : A -> bool) (l : list A) :
  (countIf p l <= List.length l)%nat.
Proof.
  induction l as [|x l IH]; simpl; [lia|]. destruct (p x); lia.
Qed.

(** The model prints what the code prints where the quotient is not exact:
    23 winning trades of 80 closed ones are 28.749999999999996 percent, and
    28.7% in print. *)
Lemma win_rate_of_23_in_80 :
  winRate (repeat fifoC1 23 ++ repeat orphanClose 57) = "28.7%"%string.
Proof. vm_compute. reflexivity. Qed.

(** C7.  The win rate is the number of winning closed trades over the number
    of closed trades floored at 1, closed meaning of kind T/P or S/L however
    it is written; the quotient is taken in binary64 and reported in percent
    with one decimal.  For a ledger without closed trades it is the number
    0, not [NaN], and is printed as 0.0%; it is the floor that makes it so,
    the quotient over the bare number of closed trades being [NaN].  And
    for every ledger that an array can hold the rate is a number, and not a
    negative one. *)
Theorem win_rate_guards_empty_ledger :
  forall ts : list Trade,
    winRateNumber ts
    = (JsDouble.ofNat (winningOfKind ts)
       / JsDouble.ofNat (Nat.max (closedOfKind ts) 1) * 100)%float /\
    m_winRate (calculateMetrics ts)
    = (JsDouble.toFixed 1 (winRateNumber ts) ++ "%")%string /\
    (closedOfKind ts = 0%nat ->
     winRateNumber ts = 0%float /\
     PrimFloat.is_nan (winRateNumber ts) = false /\
     m_winRate (calculateMetrics ts) = "0.0%"%string /\
     PrimFloat.is_nan
       (JsDouble.ofNat (winningTrades ts)
        / JsDouble.ofNat (List.length (closedTrades ts)) * 100)%float = true) /\
    ((Z.of_nat (List.length ts) < 2 ^ 32)%Z ->
     PrimFloat.is_nan (winRateNumber ts) = false /\
     (0 <=? winRateNumber ts)%float = true).
Proof.
  intro ts.
  pose proof (closedTrades_ofKind ts) as Hc.
  pose proof (winningTrades_ofKind ts) as Hw.
  assert (Htot : totalClosedTrades ts = Nat.max (closedOfKind ts) 1).
  { unfold totalClosedTrades. rewrite Hc.
    destruct (closedOfKind ts); simpl; lia. }
  assert (Hnum : winRateNumber ts
                 = (JsDouble.ofNat (winningOfKind ts)
                    / JsDouble.ofNat (Nat.max (closedOfKind ts) 1) * 100)%float).
  { unfold winRateNumber. rewrite Htot, Hw. reflexivity. }
  split; [exact Hnum|]. split; [reflexivity|]. split.
  - intro Hzero.
    assert (Hw0 : winningOfKind ts = 0%nat).
    { pose proof (countIf_and_le ofCloseKind
                    (fun t => JsNumber.gtb (profitLoss t) 0) ts) as H.
      unfold winningOfKind, closedOfKind in *. lia. }
    cbn [calculateMetrics m_winRate]. unfold winRate.
    rewrite Hnum, Hw, Hc, Hw0, Hzero.
    repeat split; reflexivity.
  - intro Hlen. rewrite Hnum.
    pose proof (countIf_le_length ofCloseKind ts) as H1.
    pose proof (countIf_le_length
                  (fun t => ofCloseKind t && JsNumber.gtb (profitLoss t) 0) ts)
      as H2.
    fold (closedOfKind ts) in H1. fold (winningOfKind ts) in H2.
    assert (Hbig : (2 ^ 32 < 2 ^ 53)%Z) by reflexivity.
    apply rate_is_a_number; lia.
Qed.

Lemma win_rate_guards_empty_ledger_witness :
  closedOfKind [fifoO1; fifoO2] = 0%nat /\
  winRateNumber [fifoO1; fifoO2] = 0%float /\
  m_winRate (calculateMetrics [fifoO1; fifoO2]) = "0.0%"%string /\
  (Z.of_nat (List.length mixedResults) < 2 ^ 32)%Z /\
  PrimFloat.is_nan (winRateNumber mixedResults) = false.
Proof.
  assert (H0 : closedOfKind [fifoO1; fifoO2] = 0%nat) by reflexivity.
  assert (Hlen : (Z.of_nat (List.length mixedResults) < 2 ^ 32)%Z)
    by reflexivity.
  destruct (win_rate_guards_empty_ledger [fifoO1; fifoO2]) as (_ & _ & Hz & _).
  destruct (Hz H0) as (Hnum & _ & Htext & _).
  destruct (win_rate_guards_empty_ledger mixedResults) as (_ & _ & _ & Hall).
  split; [exact H0|]. split; [exact Hnum|]. split; [exact Htext|].
  split; [exact Hlen|]. exact (proj1 (Hall Hlen)).
Defined.

(* ------------------------------------------------------------------ *)
(** ** The drawdown *)

Lemma drawdownLoop_snoc (p : list Trade) (t : Trade) :
  drawdownLoop (p ++ [t]) = drawdownStep (drawdownLoop p) t.
Proof.
  unfold drawdownLoop. rewrite fold_left_app. reflexivity.
Qed.

(** Once the peak has been raised, the balance is not above it. *)
Lemma balance_le_peak (s : Drawdown) (t : Trade) :
  balanceAfter s t <= peakAfter s t.
Proof.
  unfold peakAfter.
  destruct (JsNumber.gtb (balanceAfter s t) (peak s)) eqn:E.
  - apply Qle_refl.
  - apply gtb_false in E. exact E.
Qed.

Lemma drawdownOf_nonneg (s : Drawdown) (t : Trade) : 0 <= drawdownOf s t.
Proof.
  unfold drawdownOf.
  destruct (JsNumber.gtb (peakAfter s t) 0) eqn:E; [|apply Qle_refl].
  apply gtb_true in E.
  apply Qmult_le_0_compat; [|discriminate].
  apply Qle_shift_div_l; [exact E|]. rewrite Qmult_0_l.
  pose proof (balance_le_peak s t). lra.
Qed.

Lemma drawdownStep_max (s : Drawdown) (t : Trade) :
  maxDrawdown (drawdownStep s t) == Qmax (maxDrawdown s) (drawdownOf s t).
Proof.
  unfold drawdownStep. simpl.
  destruct (JsNumber.gtb (drawdownOf s t) (maxDrawdown s)) eqn:E.
  - apply gtb_true in E. symmetry. apply Q.max_r. apply Qlt_le_weak, E.
  - apply gtb_false in E. symmetry. apply Q.max_l. exact E.
Qed.

Lemma drawdownStep_grows (s : Drawdown) (t : Trade) :
  maxDrawdown s <= maxDrawdown (drawdownStep s t).
Proof.
  rewrite drawdownStep_max. apply Q.le_max_l.
Qed.

Lemma drawdownStep_covers (s : Drawdown) (t : Trade) :
  drawdownOf s t <= maxDrawdown (drawdownStep s t).
Proof.
  rewrite drawdownStep_max. apply Q.le_max_r.
Qed.

Lemma fold_drawdown_grows (ts : list Trade) :
  forall s, maxDrawdown s <= maxDrawdown (fold_left drawdownStep ts s).
Proof.
  induction ts as [|t ts IH]; intro s; simpl; [apply Qle_refl|].
  eapply Qle_trans; [apply (drawdownStep_grows s t)|apply IH].
Qed.

Lemma drawdownLoop_grows (p s : list Trade) :
  maxDrawdown (drawdownLoop p) <= maxDrawdown (drawdownLoop (p ++ s)).
Proof.
  unfold drawdownLoop. rewrite fold_left_app. apply fold_drawdown_grows.
Qed.

(** The reported figure is 0 or the drawdown of one of the steps. *)
Lemma drawdownLoop_attained (ts : list Trade) :
  maxDrawdown (drawdownLoop ts) = 0 \/
  exists p t s, ts = p ++ t :: s /\
                maxDrawdown (drawdownLoop ts) = drawdownOf (drawdownLoop p) t.
Proof.
  induction ts as [|t ts IH] using rev_ind; [left; reflexivity|].
  rewrite drawdownLoop_snoc. unfold drawdownStep at 1. simpl.
  destruct (JsNumber.gtb _ _).
  - right. exists ts, t, []. split; reflexivity.
  - destruct IH as [H|(p & t' & s & Hts & H)]; [left; exact H|].
    right. exists p, t', (s ++ [t]). split; [|exact H].
    rewrite Hts, <- app_assoc. reflexivity.
Qed.

(** C8.  Over any ledger, the drawdown of every step of the running balance
    is non-negative; each step makes the tracked figure the larger of its
    former value and the step's drawdown, so the figure never decreases along
    the ledger; and the reported maximum is non-negative, bounds the drawdown
    of every step, and is 0 or the drawdown of one of the steps. *)
Theorem max_drawdown_is_running_maximum :
  forall ts : list Trade,
    (forall p t s, ts = p ++ t :: s ->
       0 <= drawdownOf (drawdownLoop p) t /\
       maxDrawdown (drawdownLoop (p ++ [t]))
       == Qmax (maxDrawdown (drawdownLoop p)) (drawdownOf (drawdownLoop p) t) /\
       drawdownOf (drawdownLoop p) t <= maxDrawdown (drawdownLoop ts)) /\
    (forall p s, ts = p ++ s ->
       maxDrawdown (drawdownLoop p) <= maxDrawdown (drawdownLoop ts)) /\
    0 <= maxDrawdown (drawdownLoop ts) /\
    (maxDrawdown (drawdownLoop ts) = 0 \/
     exists p t s, ts = p ++ t :: s /\
                   maxDrawdown (drawdownLoop ts) = drawdownOf (drawdownLoop p) t).
Proof.
  intro ts. split; [|split; [|split]].
  - intros p t s Hts. split; [apply drawdownOf_nonneg|]. split.
    + rewrite drawdownLoop_snoc. apply drawdownStep_max.
    + eapply Qle_trans; [apply drawdownStep_covers|].
      rewrite <- drawdownLoop_snoc. subst ts.
      change (p ++ t :: s) with (p ++ [t] ++ s). rewrite app_assoc.
      apply drawdownLoop_grows.
  - intros p s Hts. subst ts. apply drawdownLoop_grows.
  - apply (drawdownLoop_grows [] ts).
  - apply drawdownLoop_attained.
Qed.

Lemma max_drawdown_is_running_maximum_witness :
  losingRun = firstn 1 losingRun ++ nth 1 losingRun orphanClose :: skipn 2 losingRun /\
  drawdownOf (drawdownLoop (firstn 1 losingRun)) (nth 1 losingRun orphanClose) == 25 /\
  drawdownOf (drawdownLoop (firstn 1 losingRun)) (nth 1 losingRun orphanClose)
  <= maxDrawdown (drawdownLoop losingRun) /\
  maxDrawdown (drawdownLoop losingRun) == 25.
Proof.
  assert (H : losingRun
              = firstn 1 losingRun ++ nth 1 losingRun orphanClose :: skipn 2 losingRun)
    by reflexivity.
  split; [exact H|]. split; [reflexivity|]. split; [|reflexivity].
  destruct (max_drawdown_is_running_maximum losingRun) as [Hstep _].
  apply (Hstep _ _ _ H).
Defined.

(* ------------------------------------------------------------------ *)
(** ** The walk over ledger and bars *)

Lemma sorted_head_later (ts : Z) (t : Trade) (l : list Trade) :
  StronglySorted byTime (t :: l) -> due ts t = false ->
  filter (due ts) (t :: l) = [] /\ filter (later ts) (t :: l) = t :: l.
Proof.
  intros Hs Ht. apply StronglySorted_inv in Hs. destruct Hs as [_ Hall].
  assert (Hl : Forall (fun x => due ts x = false) (t :: l)).
  { constructor; [exact Ht|]. eapply Forall_impl; [|exact Hall].
    unfold byTime, due in *. intros x Hx.
    apply Z.leb_gt in Ht. apply Z.leb_gt. lia. }
  clear - Hl. split.
  - induction Hl as [|x l' Hx _ IH]; simpl; [reflexivity|].
    rewrite Hx. exact IH.
  - induction Hl as [|x l' Hx _ IH]; simpl; [reflexivity|].
    unfold later at 1. rewrite Hx. simpl. f_equal. exact IH.
Qed.

(** On a ledger in time order the loop of a bar applies the rows that are
    due, each once and in ledger order, and leaves the later ones. *)
Lemma processTrades_sorted (lbl : string) (ts : Z) (l : list Trade) :
  StronglySorted byTime l ->
  forall st,
    processTrades lbl ts l st
    = (filter (later ts) l, fold_left (applyTrade lbl) (filter (due ts) l) st).
Proof.
  induction l as [|t l IH]; intros Hs st; [reflexivity|].
  destruct (due ts t) eqn:E.
  - cbn [processTrades filter]. unfold later at 1. unfold due in E |- *.
    rewrite E. cbn [negb fold_left].
    apply IH. apply StronglySorted_inv in Hs. tauto.
  - destruct (sorted_head_later ts t l Hs E) as [H1 H2].
    rewrite H1, H2. cbn [processTrades fold_left]. unfold due in E.
    rewrite E. reflexivity.
Qed.

Lemma due_split_sorted (ts ts' : Z) (l : list Trade) :
  StronglySorted byTime l -> (ts <= ts')%Z ->
  filter (due ts') l = filter (due ts) l ++ filter (due ts') (filter (later ts) l).
Proof.
  intros Hs Hle. induction l as [|t l IH]; [reflexivity|].
  destruct (due ts t) eqn:E.
  - assert (E' : due ts' t = true).
    { unfold due in *. apply Z.leb_le in E. apply Z.leb_le. lia. }
    cbn [filter]. unfold later at 1. rewrite E, E'. cbn [negb app]. f_equal.
    apply IH. apply StronglySorted_inv in Hs. tauto.
  - destruct (sorted_head_later ts t l Hs E) as [H1 H2].
    rewrite H1, H2. reflexivity.
Qed.

Lemma later_later (ts ts' : Z) (l : list Trade) :
  (ts <= ts')%Z ->
  filter (later ts') (filter (later ts) l) = filter (later ts') l.
Proof.
  intro Hle. induction l as [|t l IH]; [reflexivity|]. cbn [filter].
  destruct (later ts t) eqn:E.
  - cbn [filter]. rewrite IH. reflexivity.
  - rewrite IH.
    assert (E' : later ts' t = false).
    { unfold later, due in *. apply negb_false_iff in E.
      apply negb_false_iff. apply Z.leb_le in E. apply Z.leb_le. lia. }
    rewrite E'. reflexivity.
Qed.

Lemma due_later_recompose (ts : Z) (l : list Trade) :
  StronglySorted byTime l ->
  filter (due ts) l ++ filter (later ts) l = l.
Proof.
  intro Hs. induction l as [|t l IH]; [reflexivity|].
  destruct (due ts t) eqn:E.
  - cbn [filter]. unfold later at 1. rewrite E. cbn [negb app]. f_equal.
    apply IH. apply StronglySorted_inv in Hs. tauto.
  - destruct (sorted_head_later ts t l Hs E) as [H1 H2].
    rewrite H1, H2. reflexivity.
Qed.

Lemma filter_sorted (p : Trade -> bool) (l : list Trade) :
  StronglySorted byTime l -> StronglySorted byTime (filter p l).
Proof.
  induction 1 as [|t l Hs IH Ht]; simpl; [constructor|].
  destruct (p t); [|exact IH].
  constructor; [exact IH|].
  rewrite Forall_forall in *. intros x Hx. apply filter_In in Hx.
  apply Ht. tauto.
Qed.

Lemma mapMarketData_sorted (lbl : string) (bars : list MarketData) :
  StronglySorted byBarTime bars ->
  forall l st,
    StronglySorted byTime l ->
    mapMarketData lbl bars l st
    = map (fun data =>
             periodOf (fold_left (applyTrade lbl)
                                 (filter (due (timestamp data)) l) st) data)
          bars.
Proof.
  induction 1 as [|data bars Hb IH Hdata]; intros l st Hl; [reflexivity|].
  cbn [mapMarketData map].
  rewrite (processTrades_sorted lbl (timestamp data) l Hl st).
  f_equal.
  rewrite (IH _ _ (filter_sorted _ l Hl)).
  apply map_ext_in. intros d Hd.
  rewrite Forall_forall in Hdata. specialize (Hdata d Hd).
  rewrite (due_split_sorted (timestamp data) (timestamp d) l Hl Hdata).
  rewrite fold_left_app. reflexivity.
Qed.

(** [runBars] is the ledger and the position with which the map goes on
    after the bars it has done. *)
Lemma mapMarketData_app (lbl : string) (bars bars' : list MarketData) :
  forall l st,
    mapMarketData lbl (bars ++ bars') l st
    = mapMarketData lbl bars l st
      ++ mapMarketData lbl bars' (fst (runBars lbl bars l st))
                       (snd (runBars lbl bars l st)).
Proof.
  induction bars as [|data bars IH]; intros l st; [reflexivity|].
  cbn [app mapMarketData runBars].
  destruct (processTrades lbl (timestamp data) l st) as [rest st'].
  rewrite IH. reflexivity.
Qed.

Lemma runBars_sorted (lbl : string) (bars : list MarketData) (lastBar : MarketData) :
  StronglySorted byBarTime (bars ++ [lastBar]) ->
  forall l st,
    StronglySorted byTime l ->
    runBars lbl (bars ++ [lastBar]) l st
    = (filter (later (timestamp lastBar)) l,
       fold_left (applyTrade lbl) (filter (due (timestamp lastBar)) l) st).
Proof.
  induction bars as [|data bars IH]; intros Hb l st Hl.
  - cbn [app runBars].
    rewrite (processTrades_sorted lbl (timestamp lastBar) l Hl st). reflexivity.
  - cbn [app runBars].
    rewrite (processTrades_sorted lbl (timestamp data) l Hl st).
    simpl in Hb. apply StronglySorted_inv in Hb. destruct Hb as [Hb Hdata].
    assert (Hle : (timestamp data <= timestamp lastBar)%Z).
    { rewrite Forall_forall in Hdata. apply Hdata.
      apply in_or_app. right. left. reflexivity. }
    rewrite (IH Hb _ _ (filter_sorted _ l Hl)).
    rewrite (later_later _ _ l Hle).
    rewrite (due_split_sorted _ _ l Hl Hle), fold_left_app. reflexivity.
Qed.

(** C4.  For a ledger in time order and bars in ascending order: the row of
    each bar is the valuation of the state reached by applying, once each
    and in ledger order, exactly the ledger rows whose time is not later
    than the bar; these rows are a prefix of the ledger and the later ones
    the rest; and when the last bar is done the rows later than it are
    still on the ledger, not applied. *)
Theorem replay_applies_exactly_the_due_rows :
  forall (ledger : list Trade) (bars : list MarketData),
    StronglySorted byTime ledger ->
    StronglySorted byBarTime bars ->
    Analytics.periodData (Some {| trades := ledger; marketData := Some bars |})
    = map (fun data =>
             periodOf (after "s/l" (filter (due (timestamp data)) ledger)) data)
          bars /\
    (forall data, In data bars ->
       filter (due (timestamp data)) ledger
       ++ filter (later (timestamp data)) ledger = ledger) /\
    (forall bars' lastBar, bars = bars' ++ [lastBar] ->
       Analytics.runBars bars ledger initial
       = (filter (later (timestamp lastBar)) ledger,
          after "s/l" (filter (due (timestamp lastBar)) ledger))).
Proof.
  intros ledger bars Hl Hb. split; [|split].
  - unfold Analytics.periodData, periodData. cbn [trades marketData].
    rewrite (sortTrades_of_sorted ledger Hl).
    apply (mapMarketData_sorted "s/l" bars Hb ledger initial Hl).
  - intros data _. apply due_later_recompose, Hl.
  - intros bars' lastBar Hbars. subst bars.
    apply (runBars_sorted "s/l" bars' lastBar Hb ledger initial Hl).
Qed.

Lemma replay_applies_exactly_the_due_rows_witness :
  StronglySorted byTime lateLedger /\
  StronglySorted byBarTime scenarioBars /\
  Analytics.periodData (Some {| trades := lateLedger; marketData := Some scenarioBars |})
  = map (fun data =>
           periodOf (after "s/l" (filter (due (timestamp data)) lateLedger)) data)
        scenarioBars /\
  fst (Analytics.runBars scenarioBars lateLedger initial)
  = [row "2024.01.02 09:30" 930 "BUY" 1 1.2 0] /\
  snd (Analytics.runBars scenarioBars lateLedger initial)
  = after "s/l" (trades scenario).
Proof.
  assert (Hl : StronglySorted byTime lateLedger)
    by (repeat constructor; unfold byTime; simpl; lia).
  assert (Hb : StronglySorted byBarTime scenarioBars)
    by (repeat constructor; unfold byBarTime; simpl; lia).
  destruct (replay_applies_exactly_the_due_rows lateLedger scenarioBars Hl Hb)
    as (Hrows & _ & Hlast).
  split; [exact Hl|]. split; [exact Hb|]. split; [exact Hrows|].
  rewrite (Hlast (firstn 3 scenarioBars) (bar 915 1.105) eq_refl).
  split; reflexivity.
Defined.

(* ------------------------------------------------------------------ *)
(** ** Net position and open lots *)

Lemma Cents_0 : Cents 0.
Proof. exists 0%Z. reflexivity. Qed.

Lemma Cents_plus (a b : Q) : Cents a -> Cents b -> Cents (a + b).
Proof.
  intros [n Hn] [m Hm]. exists (n + m)%Z. rewrite Hn, Hm.
  unfold Qeq. simpl. lia.
Qed.

Lemma Cents_opp (a : Q) : Cents a -> Cents (- a).
Proof.
  intros [n Hn]. exists (- n)%Z. rewrite Hn. reflexivity.
Qed.

Lemma Cents_wd (a b : Q) : a == b -> Cents a -> Cents b.
Proof.
  intros Hab [n Hn]. exists n. rewrite <- Hab. exact Hn.
Qed.

Lemma nearest_hundredths (x : Q) (m : Z) :
  x == m # 100 -> JsNumber.nearest 2 x = m.
Proof.
  intro Hx. unfold JsNumber.nearest. change (JsNumber.pow10 2) with 100%Z.
  rewrite (Qfloor_comp _ ((2 * m + 1) # 2)).
  - unfold Qfloor. symmetry. apply Z.div_unique with (r := 1%Z); lia.
  - rewrite Hx. unfold Qeq. cbn -[Z.mul Z.add]. lia.
Qed.

(** Rounding to two decimals leaves a whole number of hundredths as it
    is. *)
Lemma toFixedNumber_Cents (q : Q) : Cents q -> JsNumber.toFixedNumber 2 q == q.
Proof.
  intros [n Hn]. unfold JsNumber.toFixedNumber.
  destruct (Qle_bool _ _); [reflexivity|].
  destruct (JsNumber.ltb q 0).
  - rewrite (nearest_hundredths (- q) (- n)).
    + change (JsNumber.pow10 2) with 100%Z. rewrite Hn.
      unfold Qeq. cbn -[Z.mul Z.add Z.opp]. lia.
    + rewrite Hn. reflexivity.
  - rewrite (nearest_hundredths q n Hn).
    change (JsNumber.pow10 2) with 100%Z. rewrite Hn.
    unfold Qeq. cbn -[Z.mul Z.add Z.opp]. lia.
Qed.






(** The signed size the close case takes off the net position. *)
Lemma direction_times_size (l lots : Q) :
  lots == Qabs l ->
  (if JsNumber.gtb l 0 then 1 else - (1)) * lots == l.
Proof.
  intro H. destruct (JsNumber.gtb l 0) eqn:E.
  - apply gtb_true in E. rewrite H, Qabs_pos; [ring|]. apply Qlt_le_weak, E.
  - apply gtb_false in E. rewrite H, Qabs_neg; [ring|exact E].
Qed.




(** *** Ledgers of one lot size

    The parser gives every row the lot size 1.  A ledger of one lot size whose
    opens have distinct times is admissible. *)





Section OneLotSize.

Variable L : Q.
Hypothesis L_cents : Cents L.
Hypothesis L_nonneg : 0 <= L.




End OneLotSize.



Lemma Cents_1 : Cents 1.
Proof. exists 100%Z. reflexivity. Qed.



(* ================================================================== *)
(** * Further properties *)

(* ------------------------------------------------------------------ *)
(** ** The figures of the metrics *)

Lemma ltb_true (x y : Q) : JsNumber.ltb x y = true <-> x < y.
Proof. unfold JsNumber.ltb. apply gtb_true. Qed.

Lemma filter_disjoint_length {A : Type} (p q : A -> bool) (l : list A) :
  (forall x, p x && q x = false) ->
  (List.length (filter p l) + List.length (filter q l) <= List.length l)%nat.
Proof.
  intro H. induction l as [|x l IH]; simpl; [lia|].
  specialize (H x). destruct (p x), (q x); simpl in *; try discriminate; lia.
Qed.

Lemma filter_filter_length {A : Type} (p q : A -> bool) (l : list A) :
  (List.length (filter q (filter p l)) <= List.length (filter q l))%nat.
Proof.
  induction l as [|x l IH]; simpl; [lia|].
  destruct (p x); simpl; destruct (q x); simpl; lia.
Qed.

(** X4.  The winning and the losing trades are closed trades and no trade is
    both, so together they are no more than the closed trades, which are no
    more than all the rows; and the figures the average profit is taken over
    may be more than the winning trades, since they are not kept to the
    closed rows. *)
Theorem counts_of_the_metrics :
  forall ts : list Trade,
    (m_winningTrades (calculateMetrics ts) + m_losingTrades (calculateMetrics ts)
     <= closedCount ts)%nat /\
    (closedCount ts <= totalTrades (calculateMetrics ts))%nat /\
    (m_winningTrades (calculateMetrics ts) <= List.length (profits ts))%nat /\
    (m_losingTrades (calculateMetrics ts) <= List.length (losses ts))%nat.
Proof.
  intro ts. cbn [calculateMetrics m_winningTrades m_losingTrades totalTrades].
  unfold winningTrades, losingTrades, closedCount, closedTrades, profits, losses.
  rewrite <- length_filter_countIf, !length_map.
  split; [|split; [|split]].
  - apply filter_disjoint_length. intro t.
    destruct (JsNumber.gtb (profitLoss t) 0) eqn:Eg; [|reflexivity].
    destruct (JsNumber.ltb (profitLoss t) 0) eqn:El; [|reflexivity].
    apply gtb_true in Eg. apply ltb_true in El. exfalso.
    apply (Qlt_irrefl 0). eapply Qlt_trans; eassumption.
  - apply filter_length_le.
  - apply filter_filter_length.
  - apply filter_filter_length.
Qed.

(* ------------------------------------------------------------------ *)
(** ** More on the drawdown loop *)

Lemma drawdownOf_zero_at_peak (s : Drawdown) (t : Trade) :
  peakAfter s t == balanceAfter s t \/ peakAfter s t <= 0 ->
  drawdownOf s t == 0.
Proof.
  intro H. unfold drawdownOf.
  destruct (JsNumber.gtb (peakAfter s t) 0) eqn:E; [|reflexivity].
  apply gtb_true in E. destruct H as [H|H]; [|lra].
  rewrite H. field. lra.
Qed.

Lemma step_keeps_zero (s : Drawdown) (t : Trade) :
  maxDrawdown s = 0 -> drawdownOf s t == 0 ->
  maxDrawdown (drawdownStep s t) = 0.
Proof.
  intros Hm Hd. unfold drawdownStep. simpl. rewrite Hm.
  assert (E : JsNumber.gtb (drawdownOf s t) 0 = false)
    by (apply gtb_false; rewrite Hd; apply Qle_refl).
  rewrite E. reflexivity.
Qed.

Lemma gains_keep_zero (ts : list Trade) :
  forall s,
    maxDrawdown s = 0 -> peak s <= balance s ->
    Forall (fun t => 0 <= profitLoss t) ts ->
    maxDrawdown (fold_left drawdownStep ts s) = 0.
Proof.
  induction ts as [|t ts IH]; intros s Hm Hp Hall; simpl; [exact Hm|].
  inversion Hall as [|? ? Ht Hall']; subst.
  assert (Hpeak : peakAfter s t == balanceAfter s t).
  { unfold peakAfter, balanceAfter.
    destruct (JsNumber.gtb (balance s + profitLoss t) (peak s)) eqn:E;
      [reflexivity|].
    apply gtb_false in E. lra. }
  apply IH; [|simpl; rewrite Hpeak; apply Qle_refl|exact Hall'].
  apply step_keeps_zero; [exact Hm|].
  apply drawdownOf_zero_at_peak. left. exact Hpeak.
Qed.

(** X6.  The opening balance of 100000 is not taken as a peak.  So a ledger
    of a single row reports a drawdown of zero whatever its figure, a loss
    included; and so does any ledger without a losing row. *)
Theorem no_drawdown_without_an_earlier_peak :
  (forall t : Trade, maxDrawdown (drawdownLoop [t]) = 0) /\
  (forall ts : list Trade,
      Forall (fun t => 0 <= profitLoss t) ts ->
      maxDrawdown (drawdownLoop ts) = 0).
Proof.
  split.
  - intro t. unfold drawdownLoop. cbn [fold_left].
    apply step_keeps_zero; [reflexivity|].
    apply drawdownOf_zero_at_peak. unfold peakAfter.
    destruct (JsNumber.gtb (balanceAfter drawdownStart t) (peak drawdownStart))
      eqn:E; [left; reflexivity|].
    right. apply Qle_refl.
  - intros ts Hall. unfold drawdownLoop. apply gains_keep_zero.
    + reflexivity.
    + simpl. discriminate.
    + exact Hall.
Qed.

Lemma no_drawdown_without_an_earlier_peak_witness :
  maxDrawdown
    (drawdownLoop [row "2024.01.02 09:10" 910 "S/L" 1 1.09 (-25000)]) = 0 /\
  Forall (fun t => 0 <= profitLoss t) (trades scenario) /\
  maxDrawdown (drawdownLoop (trades scenario)) = 0.
Proof.
  destruct no_drawdown_without_an_earlier_peak as [Hone Hgain].
  assert (Hall : Forall (fun t => 0 <= profitLoss t) (trades scenario))
    by (repeat constructor; discriminate).
  split; [apply Hone|]. split; [exact Hall|]. apply Hgain, Hall.
Defined.

Lemma drawdownOf_le_100 (s : Drawdown) (t : Trade) :
  0 <= balanceAfter s t -> drawdownOf s t <= 100.
Proof.
  intro Hb. unfold drawdownOf.
  destruct (JsNumber.gtb (peakAfter s t) 0) eqn:E; [|discriminate].
  apply gtb_true in E.
  setoid_replace 100 with (1 * 100) at 2 by ring.
  apply Qmult_le_compat_r; [|discriminate].
  apply Qle_shift_div_r; [exact E|]. lra.
Qed.

Lemma fold_drawdown_le_100 (ts : list Trade) :
  forall s,
    maxDrawdown s <= 100 ->
    Forall (fun b => 0 <= b) (balancesFrom (balance s) ts) ->
    maxDrawdown (fold_left drawdownStep ts s) <= 100.
Proof.
  induction ts as [|t ts IH]; intros s Hm Hall; simpl; [exact Hm|].
  simpl in Hall. inversion Hall as [|? ? Hb Hall']; subst.
  apply IH; [|exact Hall'].
  simpl. destruct (JsNumber.gtb (drawdownOf s t) (maxDrawdown s));
    [|exact Hm].
  apply drawdownOf_le_100. exact Hb.
Qed.

(** X7.  As long as the running balance, 100000 plus the figures so far, is
    never negative, the reported drawdown is at most 100 percent. *)
Theorem drawdown_at_most_100_while_solvent :
  forall ts : list Trade,
    Forall (fun b => 0 <= b) (balancesFrom 100000 ts) ->
    maxDrawdown (drawdownLoop ts) <= 100.
Proof.
  intros ts Hall. unfold drawdownLoop.
  apply fold_drawdown_le_100; [discriminate|exact Hall].
Qed.

Lemma drawdown_at_most_100_while_solvent_witness :
  Forall (fun b => 0 <= b) (balancesFrom 100000 losingRun) /\
  maxDrawdown (drawdownLoop losingRun) <= 100.
Proof.
  assert (H : Forall (fun b => 0 <= b) (balancesFrom 100000 losingRun))
    by (repeat constructor; discriminate).
  split; [exact H|]. apply (drawdown_at_most_100_while_solvent losingRun H).
Defined.

(* ------------------------------------------------------------------ *)
(** ** Paging *)

(** The number of pages is the least whose rows cover the data. *)
Lemma totalPages_bounds {A : Type} (pageSize : Z) (rows : list A) :
  (0 < pageSize)%Z ->
  ((totalPages pageSize rows - 1) * pageSize < Z.of_nat (List.length rows)
   <= totalPages pageSize rows * pageSize)%Z.
Proof.
  intro Hps. unfold totalPages.
  set (n := Z.of_nat (List.length rows)).
  set (x := inject_Z n / inject_Z pageSize).
  assert (Hq : 0 < inject_Z pageSize)
    by (change 0 with (inject_Z 0); rewrite <- Zlt_Qlt; exact Hps).
  assert (Hx : x * inject_Z pageSize == inject_Z n)
    by (unfold x; field; lra).
  pose proof (Qle_ceiling x) as Hle. pose proof (Qceiling_lt x) as Hlt.
  split.
  - apply (Qmult_lt_compat_r _ _ _ Hq) in Hlt.
    rewrite Hx, <- inject_Z_mult, <- Zlt_Qlt in Hlt. exact Hlt.
  - pose proof (Qmult_le_compat_r _ _ _ Hle (Qlt_le_weak _ _ Hq)) as Hm.
    rewrite Hx, <- inject_Z_mult, <- Zle_Qle in Hm. exact Hm.
Qed.

(** A page from the first on is the [pageSize] rows after those of the
    pages before it. *)
Lemma currentPeriods_chunk {A : Type} (i ps : nat) (rows : list A) :
  (0 < ps)%nat ->
  currentPeriods (Z.of_nat (S i)) (Z.of_nat ps) rows
  = firstn ps (skipn (i * ps) rows).
Proof.
  intro Hps.
  unfold currentPeriods, slice, indexOfFirstPeriod, indexOfLastPeriod,
    relativeIndex.
  set (n := List.length rows).
  assert (Hfirst : (Z.of_nat (S i) * Z.of_nat ps - Z.of_nat ps
                    = Z.of_nat (i * ps))%Z) by lia.
  assert (Hlast : (Z.of_nat (S i) * Z.of_nat ps
                   = Z.of_nat (i * ps + ps))%Z) by lia.
  rewrite Hfirst, Hlast.
  destruct (Z.of_nat (i * ps) <? 0)%Z eqn:E1; [apply Z.ltb_lt in E1; lia|].
  destruct (Z.of_nat (i * ps + ps) <? 0)%Z eqn:E2; [apply Z.ltb_lt in E2; lia|].
  destruct (Nat.le_gt_cases n (i * ps)) as [Hout|Hin].
  - rewrite !Z.min_r by lia. rewrite Nat2Z.id.
    rewrite (skipn_all2 rows) by (fold n; lia).
    rewrite (skipn_all2 rows) by (fold n; lia).
    rewrite !firstn_nil. reflexivity.
  - rewrite (Z.min_l (Z.of_nat (i * ps))) by lia. rewrite Nat2Z.id.
    destruct (Nat.le_gt_cases (i * ps + ps) n) as [Hfull|Hpart].
    + rewrite Z.min_l by lia. f_equal. lia.
    + rewrite Z.min_r by lia.
      assert (Hlen : List.length (skipn (i * ps) rows) = (n - i * ps)%nat)
        by (apply length_skipn).
      rewrite !firstn_all2; [reflexivity|lia|lia].
Qed.

Lemma chunks_concat {A : Type} (ps m : nat) (rows : list A) :
  List.concat (map (fun i => firstn ps (skipn (i * ps) rows)) (seq 0 m))
  = firstn (m * ps) rows.
Proof.
  induction m as [|m IH]; [reflexivity|].
  rewrite seq_S, map_app, concat_app, IH. simpl.
  rewrite app_nil_r, <- firstn_plus. f_equal. lia.
Qed.

(** X8.  For a positive page size the pages 1 to [totalPages] cut the rows
    into consecutive runs: put one after the other they give the rows back,
    none dropped, none twice. *)
Theorem pages_cover_the_rows :
  forall (A : Type) (pageSize : Z) (rows : list A),
    (0 < pageSize)%Z ->
    List.concat (map (fun page => currentPeriods page pageSize rows)
                (pagesUpTo (totalPages pageSize rows)))
    = rows.
Proof.
  intros A pageSize rows Hps.
  pose proof (totalPages_bounds pageSize rows Hps) as [_ Hcover].
  unfold pagesUpTo. rewrite map_map.
  set (T := totalPages pageSize rows) in *.
  set (ps := Z.to_nat pageSize).
  assert (Hps' : (0 < ps)%nat) by (unfold ps; lia).
  rewrite (map_ext _ (fun i => firstn ps (skipn (i * ps) rows))).
  - rewrite chunks_concat. apply firstn_all2.
    assert (HT : (0 <= T)%Z) by nia.
    unfold ps. nia.
  - intro i. rewrite <- (currentPeriods_chunk i ps rows Hps').
    unfold ps. rewrite Z2Nat.id by lia. reflexivity.
Qed.

Lemma pages_cover_the_rows_witness :
  (0 < 3)%Z /\
  totalPages 3 (trades scenario ++ losingRun) = 2%Z /\
  List.concat (map (fun page => currentPeriods page 3 (trades scenario ++ losingRun))
                   (pagesUpTo (totalPages 3 (trades scenario ++ losingRun))))
  = trades scenario ++ losingRun.
Proof.
  split; [reflexivity|]. split; [reflexivity|].
  apply (pages_cover_the_rows Trade 3 (trades scenario ++ losingRun)).
  reflexivity.
Defined.

(** X9.  On a page from 1 to [totalPages] there are between one and
    [pageSize] rows, and the line above the table counts them right: it
    reads from [showingFrom] to [showingTo], both within the data.  A page
    beyond [totalPages] is empty, though the data may not be. *)
Theorem page_matches_its_caption :
  forall (A : Type) (pageSize currentPage : Z) (rows : list A),
    (0 < pageSize)%Z ->
    (1 <= currentPage)%Z ->
    let shown := currentPeriods currentPage pageSize rows in
    ((currentPage <= totalPages pageSize rows)%Z ->
     (1 <= Z.of_nat (List.length shown) <= pageSize)%Z /\
     (showingTo currentPage pageSize rows - showingFrom currentPage pageSize + 1
      = Z.of_nat (List.length shown))%Z /\
     (1 <= showingFrom currentPage pageSize
      <= showingTo currentPage pageSize rows)%Z /\
     (showingTo currentPage pageSize rows <= Z.of_nat (List.length rows))%Z) /\
    ((totalPages pageSize rows < currentPage)%Z -> shown = []).
Proof.
  intros A pageSize currentPage rows Hps Hpage shown.
  pose proof (totalPages_bounds pageSize rows Hps) as [Hlow Hcover].
  set (T := totalPages pageSize rows) in *.
  set (n := List.length rows) in *.
  set (ps := Z.to_nat pageSize).
  set (i := Z.to_nat (currentPage - 1)).
  assert (Hps' : (0 < ps)%nat) by (unfold ps; lia).
  assert (Hshown : shown = firstn ps (skipn (i * ps) rows)).
  { unfold shown. rewrite <- (currentPeriods_chunk i ps rows Hps').
    unfold ps, i. rewrite Z2Nat.id by lia.
    replace (Z.of_nat (S (Z.to_nat (currentPage - 1)))) with currentPage by lia.
    reflexivity. }
  assert (Hlen : List.length shown = Nat.min ps (n - i * ps)).
  { rewrite Hshown, length_firstn, length_skipn. reflexivity. }
  assert (Hi : Z.of_nat (i * ps) = ((currentPage - 1) * pageSize)%Z).
  { unfold i, ps. rewrite Nat2Z.inj_mul, !Z2Nat.id by lia. reflexivity. }
  split.
  - intro HT.
    assert (Hin : ((currentPage - 1) * pageSize < Z.of_nat n)%Z) by nia.
    unfold showingTo, showingFrom, indexOfFirstPeriod, indexOfLastPeriod.
    fold n. rewrite Hlen.
    assert (Hps2 : Z.of_nat ps = pageSize) by (unfold ps; lia).
    repeat split; lia.
  - intro HT. rewrite Hshown.
    rewrite skipn_all2; [apply firstn_nil|]. fold n. nia.
Qed.

Lemma page_matches_its_caption_witness :
  (0 < 4)%Z /\ (1 <= 2)%Z /\
  (2 <= totalPages 4 (trades scenario ++ losingRun))%Z /\
  showingFrom 2 4 = 5%Z /\
  showingTo 2 4 (trades scenario ++ losingRun) = 6%Z /\
  (showingTo 2 4 (trades scenario ++ losingRun) - showingFrom 2 4 + 1
   = Z.of_nat (List.length (currentPeriods 2 4 (trades scenario ++ losingRun))))%Z.
Proof.
  assert (Hps : (0 < 4)%Z) by reflexivity.
  assert (Hpage : (1 <= 2)%Z) by discriminate.
  assert (HT : (2 <= totalPages 4 (trades scenario ++ losingRun))%Z)
    by (vm_compute; discriminate).
  split; [exact Hps|]. split; [exact Hpage|]. split; [exact HT|].
  split; [reflexivity|]. split; [reflexivity|].
  apply (page_matches_its_caption Trade 4 2 (trades scenario ++ losingRun)
                                  Hps Hpage), HT.
Defined.

(* ------------------------------------------------------------------ *)
(** ** The visible range of the chart *)

Lemma secondsOf_back (endTime days : Z) :
  secondsOf (endTime - days * intervalsPerDay * 15 * 60 * 1000)
  = (secondsOf endTime - days * 86400)%Z.
Proof.
  unfold secondsOf, intervalsPerDay.
  replace (endTime - days * 96 * 15 * 60 * 1000)%Z
    with (endTime + (- (days * 86400)) * 1000)%Z by ring.
  rewrite Z.div_add by discriminate. ring.
Qed.

(** X10.  With the chart in place and rows to show, each of the ranges 1D,
    7D, 30D and 1Y ends at the second of the last row and is exactly 1, 7,
    30 or 365 days long, whatever the rows are and however many; the range
    All goes from the first row to the last; and without the chart or
    without rows no range is set. *)
Theorem visible_range_has_its_length :
  forall (range : string) (first : PeriodData) (rest : list PeriodData),
    let rows := first :: rest in
    let lastSecond := secondsOf (pd_timestamp (last rows first)) in
    (forall days, In (range, days) rangeDays ->
       handleRangeChange true range rows
       = Some ((lastSecond - days * 86400)%Z, lastSecond)) /\
    handleRangeChange true "All" rows
    = Some (secondsOf (pd_timestamp first), lastSecond) /\
    handleRangeChange false range rows = None /\
    handleRangeChange true range [] = None.
Proof.
  intros range first rest rows lastSecond.
  split; [|split; [|split]]; try reflexivity.
  intros days Hin.
  set (endTime := pd_timestamp (last rows first)).
  assert (H1 : secondsOf (endTime - intervalsPerDay * 15 * 60 * 1000)
               = (secondsOf endTime - 1 * 86400)%Z).
  { rewrite <- (secondsOf_back endTime 1). f_equal; ring. }
  simpl in Hin.
  destruct Hin as [H|[H|[H|[H|[]]]]]; inversion H; subst.
  - change (handleRangeChange true "1D" rows)
      with (Some (secondsOf (endTime - intervalsPerDay * 15 * 60 * 1000),
                  secondsOf endTime)).
    rewrite H1. reflexivity.
  - change (handleRangeChange true "7D" rows)
      with (Some (secondsOf (endTime - 7 * intervalsPerDay * 15 * 60 * 1000),
                  secondsOf endTime)).
    rewrite secondsOf_back. reflexivity.
  - change (handleRangeChange true "30D" rows)
      with (Some (secondsOf (endTime - 30 * intervalsPerDay * 15 * 60 * 1000),
                  secondsOf endTime)).
    rewrite secondsOf_back. reflexivity.
  - change (handleRangeChange true "1Y" rows)
      with (Some (secondsOf (endTime - 365 * intervalsPerDay * 15 * 60 * 1000),
                  secondsOf endTime)).
    rewrite secondsOf_back. reflexivity.
Qed.

Lemma visible_range_has_its_length_witness :
  In ("7D"%string, 7%Z) rangeDays /\
  handleRangeChange true "7D" (Analytics.periodData (Some scenario))
  = Some ((0 - 7 * 86400)%Z, 0%Z).
Proof.
  assert (Hin : In ("7D"%string, 7%Z) rangeDays) by (simpl; tauto).
  split; [exact Hin|].
  destruct (Analytics.periodData (Some scenario)) as [|first rest] eqn:E;
    [discriminate E|].
  destruct (visible_range_has_its_length "7D" first rest) as [H _].
  rewrite (H 7%Z Hin). rewrite <- E. reflexivity.
Defined.

(* ------------------------------------------------------------------ *)
(** ** Letter case *)

Lemma upperChar_lowerChar (c : ascii) :
  upperChar (JsString.lowerChar c) = upperChar c.
Proof.
  destruct c as [[] [] [] [] [] [] [] []]; reflexivity.
Qed.

Lemma lowerChar_upperChar (c : ascii) :
  JsString.lowerChar (upperChar c) = JsString.lowerChar c.
Proof.
  destruct c as [[] [] [] [] [] [] [] []]; reflexivity.
Qed.

Lemma toUpperCase_toLowerCase (s : string) :
  toUpperCase (JsString.toLowerCase s) = toUpperCase s.
Proof.
  induction s as [|c s IH]; simpl; [reflexivity|].
  rewrite upperChar_lowerChar, IH. reflexivity.
Qed.

Lemma toLowerCase_toUpperCase (s : string) :
  JsString.toLowerCase (toUpperCase s) = JsString.toLowerCase s.
Proof.
  induction s as [|c s IH]; simpl; [reflexivity|].
  rewrite lowerChar_upperChar, IH. reflexivity.
Qed.

(* ------------------------------------------------------------------ *)
(** ** The filter of the trade table *)

Lemma tableClosed_isClosedTrade (t : Trade) :
  tableClosed t = true -> isClosedTrade t = true.
Proof.
  unfold tableClosed, isClosedTrade. intro H.
  apply orb_true_iff in H. destruct H as [H|H];
    apply String.eqb_eq in H; rewrite H; reflexivity.
Qed.

Lemma isClosedTrade_in_capitals (t : Trade) :
  toUpperCase (type t) = type t ->
  isClosedTrade t = tableClosed t.
Proof.
  intro Hcap. unfold isClosedTrade, tableClosed.
  destruct ((JsString.toLowerCase (type t) =? "t/p")
            || (JsString.toLowerCase (type t) =? "s/l"))%string eqn:E.
  - apply orb_true_iff in E. rewrite <- Hcap, <- toUpperCase_toLowerCase.
    destruct E as [E|E]; apply String.eqb_eq in E; rewrite E; reflexivity.
  - symmetry. destruct (tableClosed t) eqn:Et; [|exact Et].
    apply tableClosed_isClosedTrade in Et. unfold isClosedTrade in Et.
    congruence.
Qed.

(** X11.  The Closed filter of the trade table compares the types as they
    are written, while the metrics lower them first: the table shows closed
    trades of the metrics only, in their order, and it shows all of them when
    the types are in capitals, as the parser writes them. *)
Theorem table_closed_filter_against_metrics :
  forall ts : list Trade,
    filteredTrades "CLOSED" ts = filter tableClosed (closedTrades ts) /\
    (Forall (fun t => toUpperCase (type t) = type t) ts ->
     filteredTrades "CLOSED" ts = closedTrades ts).
Proof.
  intro ts. unfold filteredTrades, closedTrades. cbn [String.eqb Ascii.eqb Bool.eqb].
  fold tableClosed. split.
  - induction ts as [|t ts IH]; simpl; [reflexivity|].
    destruct (tableClosed t) eqn:E.
    + rewrite (tableClosed_isClosedTrade t E). simpl. rewrite E, IH. reflexivity.
    + destruct (isClosedTrade t); simpl; [rewrite E|]; exact IH.
  - intro Hcap. induction Hcap as [|t ts Ht _ IH]; simpl; [reflexivity|].
    rewrite (isClosedTrade_in_capitals t Ht), IH. reflexivity.
Qed.

Lemma table_closed_filter_against_metrics_witness :
  Forall (fun t => toUpperCase (type t) = type t) mixedResults /\
  filteredTrades "CLOSED" mixedResults = closedTrades mixedResults /\
  closedTrades [fifoC1] = [fifoC1] /\
  filteredTrades "CLOSED" [fifoC1] = [].
Proof.
  assert (H : Forall (fun t => toUpperCase (type t) = type t) mixedResults)
    by (repeat constructor).
  split; [exact H|].
  split; [apply (table_closed_filter_against_metrics mixedResults), H|].
  split; reflexivity.
Defined.

(* ------------------------------------------------------------------ *)
(** ** The parser of the report *)

Section ParserFacts.

Variable trim : string -> string.
Variable isNumber : string -> bool.
Variable isFloat : string -> bool.

Lemma includes_In (labels : list string) (s : string) :
  includes labels s = true -> In s labels.
Proof.
  unfold includes. intro H. apply existsb_exists in H.
  destruct H as [x [Hx Heq]]. apply String.eqb_eq in Heq. subst. exact Hx.
Qed.

Lemma mt4_type_in_capitals (type : string) :
  includes mt4Types (JsString.toLowerCase type) = true ->
  In (toUpperCase type) ledgerTypes.
Proof.
  intro H. apply includes_In in H. rewrite <- toUpperCase_toLowerCase.
  simpl in H. destruct H as [H|[H|[H|[H|[]]]]]; rewrite <- H; simpl; tauto.
Qed.

Lemma mt5_type_normalized (type : string) :
  includes mt5Types (JsString.toLowerCase type) = true ->
  In (normalizedType type) ledgerTypes.
Proof.
  intro H. apply includes_In in H. unfold normalizedType.
  rewrite <- toUpperCase_toLowerCase.
  simpl in H. destruct H as [H|[H|[H|[H|[]]]]]; rewrite <- H; simpl; tauto.
Qed.

Lemma findTypeIndex_found (cells : list string) :
  forall k i,
    findTypeIndex trim cells k = Some i ->
    exists j c, i = (k + j)%nat /\ nth_error cells j = Some c /\
                includes mt5Types (JsString.toLowerCase (trim c)) = true.
Proof.
  induction cells as [|c cells IH]; intros k i H; cbn [findTypeIndex] in H;
    [discriminate|].
  destruct (includes mt5Types (JsString.toLowerCase (trim c))) eqn:E.
  - injection H as <-. exists 0%nat, c.
    split; [apply plus_n_O|]. split; [reflexivity|exact E].
  - destruct (IH _ _ H) as (j & c' & Hi & Hn & Hc).
    exists (S j), c'. split; [lia|]. split; assumption.
Qed.

Lemma ledgerTypes_recognised (ty : string) :
  In ty ledgerTypes ->
  recognised (JsString.toLowerCase ty) = true /\
  JsString.toLowerCase ty <> "close at stop"%string.
Proof.
  simpl. intros [H|[H|[H|[H|[]]]]]; rewrite <- H; split;
    try reflexivity; discriminate.
Qed.

Lemma rowTrade_shape (platform : Platform) (cells : list string) (t : Raw.Trade) :
  rowTrade trim isNumber isFloat platform cells = Some t ->
  In (Raw.type t) ledgerTypes /\
  Raw.open t = "1"%string /\
  Raw.convertFX t = "1.0000"%string /\
  Raw.total t = Raw.balance t /\
  (8 <= List.length cells)%nat.
Proof.
  unfold rowTrade.
  destruct (List.length cells <? 8)%nat eqn:El; [discriminate|].
  apply Nat.ltb_ge in El.
  destruct (negb _ || negb _); [discriminate|].
  destruct platform.
  - unfold mt4Trade.
    destruct (includes mt4Types (JsString.toLowerCase (cellText trim cells 2)))
      eqn:E; [|discriminate].
    intro H. inversion H; subst; simpl.
    repeat split; try assumption. apply mt4_type_in_capitals, E.
  - unfold mt5Trade.
    destruct (findTypeIndex trim cells 0) as [typeIndex|] eqn:E;
      [|discriminate].
    intro H. inversion H; subst; simpl.
    repeat split; try assumption.
    apply mt5_type_normalized.
    destruct (findTypeIndex_found cells 0 typeIndex E) as (j & c & Hi & Hn & Hc).
    simpl in Hi. subst j. unfold cellText. rewrite Hn. exact Hc.
Qed.

Lemma extractTrades_In (platform : Platform) (tableRows : list (list string))
      (t : Raw.Trade) :
  In t (extractTrades trim isNumber isFloat platform tableRows) ->
  exists cells, In cells tableRows /\
                rowTrade trim isNumber isFloat platform cells = Some t.
Proof.
  induction tableRows as [|cells rest IH]; simpl; [tauto|].
  destruct (rowTrade trim isNumber isFloat platform cells) as [t'|] eqn:E.
  - intros [H|H].
    + subst t'. exists cells. split; [left; reflexivity|exact E].
    + destruct (IH H) as (c & Hc & Hr). exists c. split; [right|]; assumption.
  - intro H. destruct (IH H) as (c & Hc & Hr).
    exists c. split; [right|]; assumption.
Qed.

End ParserFacts.

(** X12.  Whatever the report and for either platform, every row the parser
    returns has one of the types BUY, SELL, T/P and S/L, the lot size 1, the
    conversion rate 1.0000 and the same text as balance and total; so the
    replay of the chart component has a case for each of them, and none is
    of the type Close at stop that the older copy looks for. *)
Theorem parsed_rows_have_ledger_types :
  forall (trim : string -> string) (isNumber isFloat : string -> bool)
         (platform : Platform) (tableRows : list (list string)) (t : Raw.Trade),
    In t (extractTrades trim isNumber isFloat platform tableRows) ->
    In (Raw.type t) ledgerTypes /\
    Raw.open t = "1"%string /\
    Raw.convertFX t = "1.0000"%string /\
    Raw.total t = Raw.balance t /\
    recognised (JsString.toLowerCase (Raw.type t)) = true /\
    JsString.toLowerCase (Raw.type t) <> "close at stop"%string.
Proof.
  intros trim isNumber isFloat platform tableRows t Hin.
  destruct (extractTrades_In trim isNumber isFloat platform tableRows t Hin)
    as (cells & _ & Hrow).
  destruct (rowTrade_shape trim isNumber isFloat platform cells t Hrow)
    as (Hty & Hopen & Hfx & Htot & _).
  destruct (ledgerTypes_recognised _ Hty) as [Hrec Hstop].
  repeat split; assumption.
Qed.

Lemma parsed_rows_have_ledger_types_witness :
  map Raw.type (extractTrades dropBlanks allDigits readsAsFloat MT4 mt4Sample)
  = ["BUY"; "T/P"]%string /\
  Forall (fun t => recognised (JsString.toLowerCase (Raw.type t)) = true)
         (extractTrades dropBlanks allDigits readsAsFloat MT5 mt5Sample) /\
  map Raw.type (extractTrades dropBlanks allDigits readsAsFloat MT5 mt5Sample)
  = ["S/L"]%string.
Proof.
  split; [reflexivity|]. split; [|reflexivity].
  apply Forall_forall. intros t Ht.
  apply (parsed_rows_have_ledger_types dropBlanks allDigits readsAsFloat MT5
                                       mt5Sample t Ht).
Defined.

Lemma scanColumns_seq (trim : string -> string) (isFloat : string -> bool)
      (cells : list string) (n : nat) :
  forall a tp0,
    (forall i, tp0 = Some i -> (i < a)%nat) ->
    let found := scanColumns trim isFloat cells (seq a n) tp0 in
    (forall i, fst found = Some i -> tp0 = Some i \/ (tp0 = None /\ (a <= i)%nat)) /\
    (forall j, snd found = Some j ->
               exists i, fst found = Some i /\ (i < j)%nat) /\
    (fst found = None -> tp0 = None).
Proof.
  induction n as [|n IH]; intros a tp0 Hlow; cbn [seq scanColumns].
  - cbn [fst snd]. repeat split.
    + intros i H. left. exact H.
    + intros j H. discriminate H.
    + tauto.
  - destruct (JsString.truthy (cellText trim cells a)
              && isFloat (cellText trim cells a)).
    + destruct tp0 as [i0|].
      * cbn [fst snd]. repeat split.
        -- intros i H. left. exact H.
        -- intros j H. injection H as <-. exists i0. split; [reflexivity|].
           apply Hlow. reflexivity.
        -- discriminate.
      * destruct (IH (S a) (Some a)) as (H1 & H2 & H3).
        { intros i H. injection H as <-. lia. }
        repeat split.
        -- intros i H. right. split; [reflexivity|].
           destruct (H1 i H) as [Hs|[Hn _]]; [|discriminate Hn].
           injection Hs as <-. lia.
        -- exact H2.
    + destruct (IH (S a) tp0) as (H1 & H2 & H3).
      { intros i H. specialize (Hlow i H). lia. }
      repeat split.
      * intros i H. destruct (H1 i H) as [Hs|[Hn Hle]]; [left; exact Hs|].
        right. split; [exact Hn|lia].
      * exact H2.
      * exact H3.
Qed.

(** X13.  In a row of an MT5 report the take profit is read from a column
    to the right of the price, and the stop loss from a column to the right
    of the take profit, so never from the same one; and a row of type S/L is
    left without a stop loss only if it has no price either. *)
Theorem mt5_columns_stand_apart :
  forall (trim : string -> string) (isFloat : string -> bool)
         (cells : list string),
    (forall priceIndex,
        (priceIndex < fst (mt5Columns trim isFloat cells priceIndex))%nat /\
        (fst (mt5Columns trim isFloat cells priceIndex)
         < snd (mt5Columns trim isFloat cells priceIndex))%nat) /\
    (forall t : Raw.Trade,
        mt5Trade trim isFloat cells = Some t ->
        Raw.type t = "S/L"%string ->
        Raw.stopLoss t = ""%string ->
        Raw.price t = ""%string).
Proof.
  intros trim isFloat cells. split.
  - intro priceIndex. unfold mt5Columns.
    set (bound := (List.length cells - 3)%nat).
    destruct (scanColumns_seq trim isFloat cells (bound - S priceIndex)
                              (S priceIndex) None) as (H1 & H2 & H3);
      [discriminate|].
    set (found := scanColumns trim isFloat cells
                              (seq (S priceIndex) (bound - S priceIndex)) None)
      in *.
    cbn [fst snd].
    destruct (fst found) as [i|] eqn:Ei.
    + destruct (H1 i eq_refl) as [Hs|[_ Hle]]; [discriminate Hs|].
      split; [lia|].
      destruct (snd found) as [j|] eqn:Ej; [|lia].
      destruct (H2 j eq_refl) as (i' & Hi' & Hlt).
      injection Hi' as <-. exact Hlt.
    + split; [lia|].
      destruct (snd found) as [j|] eqn:Ej; [|lia].
      destruct (H2 j eq_refl) as (i' & Hi' & _). discriminate Hi'.
  - intros t Ht Hty Hstop. unfold mt5Trade in Ht.
    destruct (findTypeIndex trim cells 0) as [typeIndex|]; [|discriminate].
    injection Ht as <-. cbn [Raw.type Raw.stopLoss Raw.price] in *.
    rewrite Hty in Hstop. cbn [String.eqb Ascii.eqb Bool.eqb andb] in Hstop.
    destruct (_ =? "")%string eqn:E; [exact Hstop|].
    apply String.eqb_neq in E. contradiction.
Qed.

Lemma mt5_columns_stand_apart_witness :
  (5 < fst (mt5Columns dropBlanks readsAsFloat (hd [] mt5Sample) 5)
   < snd (mt5Columns dropBlanks readsAsFloat (hd [] mt5Sample) 5))%nat /\
  (exists t : Raw.Trade,
      mt5Trade dropBlanks readsAsFloat (hd [] mt5Sample) = Some t /\
      Raw.price t = "1.0950"%string /\
      Raw.takeProfit t = "-50.00"%string /\
      Raw.stopLoss t = "9950.00"%string) /\
  (exists t : Raw.Trade,
      mt5Trade dropBlanks readsAsFloat mt5Bare = Some t /\
      Raw.type t = "S/L"%string /\
      Raw.stopLoss t = ""%string /\
      Raw.price t = ""%string).
Proof.
  destruct (mt5_columns_stand_apart dropBlanks readsAsFloat (hd [] mt5Sample))
    as [Hcols _].
  destruct (mt5_columns_stand_apart dropBlanks readsAsFloat mt5Bare)
    as [_ Hstop].
  split; [exact (Hcols 5%nat)|]. split.
  - eexists. split; [reflexivity|]. repeat split.
  - eexists. split; [reflexivity|]. split; [reflexivity|].
    split; [reflexivity|]. eapply Hstop; reflexivity.
Defined.

(* ------------------------------------------------------------------ *)
(** ** The points of the trade chart *)

Lemma findIndex_within {A : Type} (p : A -> bool) (pre suf : list A) :
  existsb p pre = true ->
  (0 <= findIndex p (pre ++ suf) < Z.of_nat (List.length pre))%Z.
Proof.
  induction pre as [|y pre IH]; simpl; [discriminate|].
  destruct (p y); [lia|]. simpl. intro H. specialize (IH H).
  destruct (findIndex p (pre ++ suf) =? -1)%Z eqn:E; [apply Z.eqb_eq in E|]; lia.
Qed.

Lemma findIndex_first {A : Type} (p : A -> bool) (pre suf : list A) (x : A) :
  existsb p pre = false -> p x = true ->
  findIndex p (pre ++ x :: suf) = Z.of_nat (List.length pre).
Proof.
  induction pre as [|y pre IH]; simpl; intros Hpre Hx.
  - rewrite Hx. reflexivity.
  - destruct (p y); [discriminate|]. simpl in Hpre.
    rewrite (IH Hpre Hx).
    destruct (Z.of_nat (List.length pre) =? -1)%Z eqn:E;
      [apply Z.eqb_eq in E|]; lia.
Qed.

Lemma keptAfter_cons (pre suf : list PricePoint) (x : PricePoint) :
  keptAfter pre (x :: suf)
  = if existsb (sameTime x) pre then keptAfter (pre ++ [x]) suf
    else x :: keptAfter (pre ++ [x]) suf.
Proof.
  unfold keptAfter. cbn [filterIndexed].
  assert (Hnext : (Z.of_nat (List.length pre) + 1)%Z
                  = Z.of_nat (List.length (pre ++ [x]))).
  { rewrite length_app. simpl. lia. }
  assert (Happ : (pre ++ [x]) ++ suf = pre ++ x :: suf)
    by (rewrite <- app_assoc; reflexivity).
  rewrite Hnext, Happ.
  destruct (existsb (sameTime x) pre) eqn:E.
  - pose proof (findIndex_within (sameTime x) pre (x :: suf) E) as H.
    destruct (Z.of_nat (List.length pre)
              =? findIndex (sameTime x) (pre ++ x :: suf))%Z eqn:Eq;
      [apply Z.eqb_eq in Eq; lia|reflexivity].
  - rewrite (findIndex_first (sameTime x) pre suf x E)
      by (unfold sameTime; apply Z.eqb_refl).
    rewrite Z.eqb_refl. reflexivity.
Qed.

Lemma existsb_sameTime (x : PricePoint) (pre : list PricePoint) :
  existsb (sameTime x) pre = true <-> In (pp_time x) (map pp_time pre).
Proof.
  rewrite existsb_exists, in_map_iff. unfold sameTime.
  split; intros [y [H1 H2]]; exists y.
  - apply Z.eqb_eq in H2. tauto.
  - split; [tauto|]. apply Z.eqb_eq. tauto.
Qed.

(** What is kept is part of the array, and every time of the array is
    behind or is kept. *)
Lemma keptAfter_In (suf : list PricePoint) :
  forall pre,
    (forall y, In y (keptAfter pre suf) -> In y suf) /\
    (forall x, In x suf ->
               In (pp_time x) (map pp_time pre)
               \/ In (pp_time x) (map pp_time (keptAfter pre suf))).
Proof.
  induction suf as [|x suf IH]; intro pre; [split; intros ? []|].
  rewrite keptAfter_cons. destruct (IH (pre ++ [x])) as [IH1 IH2].
  assert (Hnext : forall z, In z suf ->
            In (pp_time z) (map pp_time pre) \/ pp_time z = pp_time x
            \/ In (pp_time z) (map pp_time (keptAfter (pre ++ [x]) suf))).
  { intros z Hz. destruct (IH2 z Hz) as [H|H]; [|tauto].
    rewrite map_app in H. apply in_app_or in H. simpl in H.
    destruct H as [H|[H|[]]]; [tauto|]. right. left. symmetry. exact H. }
  destruct (existsb (sameTime x) pre) eqn:E.
  - apply existsb_sameTime in E. split.
    + intros y Hy. right. apply IH1, Hy.
    + intros z [<-|Hz]; [left; exact E|].
      destruct (Hnext z Hz) as [H|[H|H]]; [tauto| |tauto].
      left. rewrite H. exact E.
  - split.
    + intros y [<-|Hy]; [left; reflexivity|right; apply IH1, Hy].
    + intros z [<-|Hz]; [right; left; reflexivity|].
      destruct (Hnext z Hz) as [H|[H|H]]; [tauto| |].
      * right. left. symmetry. exact H.
      * right. right. exact H.
Qed.

(** On an array in time order the times that are kept go up strictly, and
    are above those behind. *)
Lemma keptAfter_sorted (suf : list PricePoint) :
  forall pre,
    StronglySorted byPointTime (pre ++ suf) ->
    StronglySorted beforePoint (keptAfter pre suf) /\
    Forall (fun y => Forall (fun p => beforePoint p y) pre) (keptAfter pre suf).
Proof.
  induction suf as [|x suf IH]; intros pre Hs; [split; constructor|].
  rewrite keptAfter_cons.
  assert (Hs' : StronglySorted byPointTime ((pre ++ [x]) ++ suf))
    by (rewrite <- app_assoc; exact Hs).
  destruct (IH (pre ++ [x]) Hs') as [IH1 IH2].
  assert (Hback : Forall (fun y => Forall (fun p => beforePoint p y) pre)
                         (keptAfter (pre ++ [x]) suf)).
  { eapply Forall_impl; [|exact IH2]. intros y Hy.
    apply Forall_app in Hy. tauto. }
  destruct (existsb (sameTime x) pre) eqn:E; [split; assumption|].
  split.
  - constructor; [exact IH1|].
    eapply Forall_impl; [|exact IH2]. intros y Hy.
    apply Forall_app in Hy. destruct Hy as [_ Hy]. inversion Hy; assumption.
  - constructor; [|exact Hback].
    apply Forall_forall. intros p Hp.
    assert (Hle : byPointTime p x).
    { clear - Hs Hp. induction pre as [|q pre IHp]; [destruct Hp|].
      simpl in Hs. apply StronglySorted_inv in Hs. destruct Hs as [Hs Hq].
      destruct Hp as [<-|Hp]; [|apply IHp; assumption].
      rewrite Forall_forall in Hq. apply Hq, in_or_app. right. left. reflexivity. }
    assert (Hne : pp_time p <> pp_time x).
    { intro Heq. assert (Hin : In (pp_time x) (map pp_time pre))
        by (rewrite <- Heq; apply in_map, Hp).
      apply existsb_sameTime in Hin. congruence. }
    unfold beforePoint, byPointTime in *. lia.
Qed.

Lemma insertPoint_In (p x : PricePoint) (l : list PricePoint) :
  In x (insertPoint p l) <-> x = p \/ In x l.
Proof.
  induction l as [|y l IH]; simpl.
  - intuition congruence.
  - destruct (pp_time p <=? pp_time y)%Z; simpl; [intuition congruence|].
    rewrite IH. intuition congruence.
Qed.

Lemma sortPoints_In (x : PricePoint) (l : list PricePoint) :
  In x (sortPoints l) <-> In x l.
Proof.
  induction l as [|p l IH]; simpl; [tauto|].
  rewrite insertPoint_In, IH. intuition congruence.
Qed.

Lemma insertPoint_sorted (p : PricePoint) (l : list PricePoint) :
  StronglySorted byPointTime l -> StronglySorted byPointTime (insertPoint p l).
Proof.
  induction 1 as [|y l Hs IH Hy]; simpl.
  - repeat constructor.
  - destruct (pp_time p <=? pp_time y)%Z eqn:E.
    + apply Z.leb_le in E. constructor; [constructor; assumption|].
      constructor; [exact E|].
      eapply Forall_impl; [|exact Hy]. unfold byPointTime. intros; lia.
    + apply Z.leb_gt in E. constructor; [exact IH|].
      apply Forall_forall. intros x Hx. apply insertPoint_In in Hx.
      destruct Hx as [->|Hx]; [unfold byPointTime; lia|].
      rewrite Forall_forall in Hy. apply Hy, Hx.
Qed.

Lemma sortPoints_sorted (l : list PricePoint) :
  StronglySorted byPointTime (sortPoints l).
Proof.
  induction l as [|p l IH]; simpl; [constructor|].
  apply insertPoint_sorted, IH.
Qed.

(** X14.  The points given to the trade chart have strictly increasing
    times, so no two of them share a second; every closed trade has its
    second among them; and every point is that of a closed trade of the
    ledger. *)
Theorem chart_points_rise_strictly :
  forall ts : list Trade,
    StronglySorted beforePoint (priceData ts) /\
    (forall t, In t ts -> isClosedTrade t = true ->
               In (secondsOf (stamp t)) (map pp_time (priceData ts))) /\
    (forall p, In p (priceData ts) ->
               exists t, In t ts /\ isClosedTrade t = true /\ p = pricePointOf t).
Proof.
  intro ts. unfold priceData, uniqueTimes.
  set (points := sortPoints (map pricePointOf (chartClosedTrades ts))).
  change (filterIndexed _ 0%Z points) with (keptAfter [] points).
  assert (Hpoints : forall p, In p points <->
            exists t, In t ts /\ isClosedTrade t = true /\ p = pricePointOf t).
  { intro p. unfold points, chartClosedTrades.
    rewrite sortPoints_In, in_map_iff. split.
    - intros [t [Hp Ht]]. apply sortTrades_In, filter_In in Ht.
      exists t. split; [tauto|]. split; [tauto|]. symmetry. exact Hp.
    - intros [t [Ht [Hc Hp]]]. exists t. split; [symmetry; exact Hp|].
      apply sortTrades_In, filter_In. tauto. }
  destruct (keptAfter_In points []) as [Hsub Hcover].
  split; [|split].
  - apply (keptAfter_sorted points []). apply sortPoints_sorted.
  - intros t Ht Hc.
    destruct (Hcover (pricePointOf t)) as [[]|H]; [|exact H].
    apply Hpoints. exists t. tauto.
  - intros p Hp. apply Hpoints, Hsub, Hp.
Qed.

Lemma chart_points_rise_strictly_witness :
  In (nth 2 sameSecond orphanClose) sameSecond /\
  isClosedTrade (nth 2 sameSecond orphanClose) = true /\
  map pp_time (priceData sameSecond) = [1704186600%Z] /\
  In (secondsOf (stamp (nth 2 sameSecond orphanClose)))
     (map pp_time (priceData sameSecond)).
Proof.
  assert (Hin : In (nth 2 sameSecond orphanClose) sameSecond)
    by (simpl; tauto).
  split; [exact Hin|]. split; [reflexivity|]. split; [reflexivity|].
  apply (proj1 (proj2 (chart_points_rise_strictly sameSecond)) _ Hin).
  reflexivity.
Defined.

(* ------------------------------------------------------------------ *)
(** ** More on the sort of the ledger *)

Lemma insertByTime_perm (t : Trade) (l : list Trade) :
  Permutation (insertByTime t l) (t :: l).
Proof.
  induction l as [|x l IH]; simpl; [apply Permutation_refl|].
  destruct (stamp t <=? stamp x)%Z; [apply Permutation_refl|].
  eapply Permutation_trans; [apply perm_skip, IH|apply perm_swap].
Qed.

Lemma insertByTime_at (s : Z) (t : Trade) (l : list Trade) :
  filter (fun x => (stamp x =? s)%Z) (insertByTime t l)
  = filter (fun x => (stamp x =? s)%Z) (t :: l).
Proof.
  induction l as [|x l IH]; [reflexivity|]. cbn [insertByTime].
  destruct (stamp t <=? stamp x)%Z eqn:E; [reflexivity|].
  apply Z.leb_gt in E. cbn [filter] in *. rewrite IH.
  destruct (stamp t =? s)%Z eqn:Et; [|reflexivity].
  destruct (stamp x =? s)%Z eqn:Ex; [|reflexivity].
  apply Z.eqb_eq in Et, Ex. lia.
Qed.

(** X15.  The sort the replay starts with returns the rows of the ledger,
    each as often as it is there, in time order; and rows of one and the
    same time keep the order they have in the ledger. *)
Theorem ledger_sort_is_stable :
  forall l : list Trade,
    StronglySorted byTime (sortTrades l) /\
    Permutation (sortTrades l) l /\
    (forall s : Z,
        filter (fun x => (stamp x =? s)%Z) (sortTrades l)
        = filter (fun x => (stamp x =? s)%Z) l).
Proof.
  intro l. split; [apply sortTrades_sorted|]. split.
  - induction l as [|t l IH]; simpl; [constructor|].
    eapply Permutation_trans; [apply insertByTime_perm|].
    apply perm_skip, IH.
  - intro s. induction l as [|t l IH]; [reflexivity|].
    cbn [sortTrades]. rewrite insertByTime_at. cbn [filter].
    rewrite IH. reflexivity.
Qed.

(* ------------------------------------------------------------------ *)
(** ** Bars in any order *)

Lemma later_max_at (m ts : Z) (t : Trade) :
  later (Z.max m ts) t = later m t && later ts t.
Proof.
  unfold later, due.
  destruct (stamp t <=? m)%Z eqn:Em; destruct (stamp t <=? ts)%Z eqn:Et;
    destruct (stamp t <=? Z.max m ts)%Z eqn:E; try reflexivity;
    rewrite ?Z.leb_le, ?Z.leb_gt in *; lia.
Qed.

Lemma due_max_at (m ts : Z) (t : Trade) :
  later m t = true -> due ts t = due (Z.max m ts) t.
Proof.
  unfold later, due.
  destruct (stamp t <=? m)%Z eqn:Em; [discriminate|]. intros _.
  destruct (stamp t <=? ts)%Z eqn:Et;
    destruct (stamp t <=? Z.max m ts)%Z eqn:E; try reflexivity;
    rewrite ?Z.leb_le, ?Z.leb_gt in *; lia.
Qed.

Lemma later_max (m ts : Z) (l : list Trade) :
  filter (later ts) (filter (later m) l) = filter (later (Z.max m ts)) l.
Proof.
  induction l as [|t l IH]; [reflexivity|]. cbn [filter].
  rewrite later_max_at.
  destruct (later m t); cbn [andb filter]; [|exact IH].
  rewrite IH. reflexivity.
Qed.

Lemma due_after_later (m ts : Z) (l : list Trade) :
  filter (due ts) (filter (later m) l)
  = filter (due (Z.max m ts)) (filter (later m) l).
Proof.
  induction l as [|t l IH]; [reflexivity|]. cbn [filter].
  destruct (later m t) eqn:Em; [|exact IH].
  cbn [filter]. rewrite IH, (due_max_at m ts t Em). reflexivity.
Qed.

Lemma mapMarketData_watermark (lbl : string) (l : list Trade) (st0 : Position) :
  StronglySorted byTime l ->
  forall bars m,
    mapMarketData lbl bars (filter (later m) l)
                  (fold_left (applyTrade lbl) (filter (due m) l) st0)
    = map (fun bw =>
             periodOf (fold_left (applyTrade lbl) (filter (due (snd bw)) l) st0)
                      (fst bw))
          (combine bars (watermarksFrom m bars)).
Proof.
  intros Hl bars. induction bars as [|data bars IH]; intro m; [reflexivity|].
  cbn [mapMarketData watermarksFrom combine map fst snd].
  rewrite (processTrades_sorted lbl (timestamp data) _ (filter_sorted _ l Hl)).
  rewrite later_max, due_after_later, <- fold_left_app.
  rewrite <- (due_split_sorted m (Z.max m (timestamp data)) l Hl)
    by apply Z.le_max_l.
  f_equal. apply IH.
Qed.

(** X16.  The replay does not ask the bars to be in time order, and it
    never takes a row back.  Whatever the order of the bars and of the
    ledger, the row of a bar is the valuation after exactly the ledger rows
    that are not later than the latest bar met so far, this bar included:
    a bar that comes after a later one is valued with the rows up to that
    later one. *)
Theorem bars_see_the_rows_up_to_the_latest_bar :
  forall (b : BacktestData) (bars : list MarketData),
    marketData b = Some bars ->
    Analytics.periodData (Some b)
    = map (fun bw =>
             periodOf (after "s/l" (filter (due (snd bw)) (sortTrades (trades b))))
                      (fst bw))
          (combine bars (watermarks bars)).
Proof.
  intros b bars Hbars. unfold Analytics.periodData, periodData. rewrite Hbars.
  pose proof (sortTrades_sorted (trades b)) as Hl.
  set (l := sortTrades (trades b)) in *.
  destruct bars as [|data bars]; [reflexivity|].
  cbn [mapMarketData watermarks combine map fst snd].
  rewrite (processTrades_sorted "s/l" (timestamp data) l Hl).
  f_equal. apply (mapMarketData_watermark "s/l" l initial Hl).
Qed.

Lemma bars_see_the_rows_up_to_the_latest_bar_witness :
  marketData backwardBars = Some [bar 915 1.105; bar 905 1.103] /\
  watermarks [bar 915 1.105; bar 905 1.103] = [915%Z; 915%Z] /\
  map pd_position (Analytics.periodData (Some backwardBars))
  = map pd_position
        [periodOf (after "s/l" (trades scenario)) (bar 915 1.105);
         periodOf (after "s/l" (trades scenario)) (bar 905 1.103)].
Proof.
  split; [reflexivity|]. split; [reflexivity|].
  rewrite (bars_see_the_rows_up_to_the_latest_bar backwardBars _ eq_refl).
  reflexivity.
Defined.

(* ------------------------------------------------------------------ *)
(** ** An open and its close *)

Lemma set_on_empty {V : Type} (k : string) (v : V) :
  JsObject.set k v JsObject.empty = [(k, v)].
Proof.
  unfold JsObject.set, JsObject.empty. simpl.
  destruct (JsObject.arrayIndex k); reflexivity.
Qed.

(** X18.  With no lot open, an open of a size in whole hundredths followed
    by a close of the same size brings the net position back to what it was
    and leaves no lot open, while the realized P&L of the close is added to
    the closed P&L; this holds for a buy and for a sell. *)
Theorem open_then_close_restores_position :
  forall (st : Position) (o c : Trade),
    openOrderMap st = [] ->
    Cents (position st) ->
    Cents (open o) -> 0 <= open o ->
    JsString.truthy (time o) = true ->
    isOpenTrade o = true ->
    isClosedTrade c = true ->
    open c == open o ->
    let st' := Analytics.applyTrade (Analytics.applyTrade st o) c in
    openOrderMap st' = [] /\
    position st' == position st /\
    closedProfit st' = closedProfit st + profitLoss c.
Proof.
  intros st o c Hmap Hpos Hlots Hnn Hkey Hopen Hclose Hsize st'.
  set (lots := fst (snd (lotOf o))).
  assert (Hl : Cents lots /\ open c == Qabs lots).
  { unfold lots, lotOf. cbn [fst snd]. destruct (isBuy o).
    - split; [exact Hlots|]. rewrite Qabs_pos; assumption.
    - split; [apply Cents_opp, Hlots|]. rewrite Qabs_opp, Qabs_pos; assumption. }
  destruct Hl as [Hlc Hlabs].
  assert (Hst1 : exists p1,
             Analytics.applyTrade st o
             = {| openOrderMap := [(time o, (lots, price o))];
                  position := JsNumber.toFixedNumber 2 p1;
                  closedProfit := closedProfit st |}
             /\ p1 == position st + lots).
  { unfold Analytics.applyTrade, applyTrade, applyBuy, applySell.
    unfold lots, lotOf, isOpenTrade, isBuy, isSell in *. cbn [fst snd].
    rewrite Hmap. change (@nil (string * (Q * Q))) with (@JsObject.empty (Q * Q)).
    rewrite !set_on_empty.
    destruct (JsString.toLowerCase (type o) =? "buy")%string.
    - eexists. split; reflexivity.
    - cbn [orb] in Hopen. rewrite Hopen. eexists. split; reflexivity. }
  destruct Hst1 as (p1 & Hst1 & Hp1).
  assert (Hc1 : Cents p1)
    by (eapply Cents_wd; [symmetry; exact Hp1|apply Cents_plus; assumption]).
  unfold st'. rewrite Hst1, (applyTrade_close _ c Hclose).
  unfold applyClose. cbn [openOrderMap position closedProfit]. rewrite Hkey.
  cbn [openOrderMap position closedProfit].
  pose proof (direction_times_size lots (open c) Hlabs) as Hdir.
  set (dir := if JsNumber.gtb lots 0 then 1 else - (1)) in *.
  assert (Hc2 : Cents (JsNumber.toFixedNumber 2 p1 - dir * open c)).
  { apply Cents_plus.
    - eapply Cents_wd; [symmetry; apply toFixedNumber_Cents, Hc1|exact Hc1].
    - apply Cents_opp. eapply Cents_wd; [symmetry; exact Hdir|exact Hlc]. }
  split; [|split].
  - apply (delete_head (time o) (lots, price o) []). intros [].
  - rewrite (toFixedNumber_Cents _ Hc2), (toFixedNumber_Cents _ Hc1), Hdir, Hp1.
    ring.
  - reflexivity.
Qed.

Lemma open_then_close_restores_position_witness :
  openOrderMap initial = [] /\ Cents (position initial) /\
  Cents (open fifoO1) /\ 0 <= open fifoO1 /\
  JsString.truthy (time fifoO1) = true /\ isOpenTrade fifoO1 = true /\
  isClosedTrade fifoC1 = true /\ open fifoC1 == open fifoO1 /\
  position (Analytics.applyTrade (Analytics.applyTrade initial fifoO1) fifoC1)
  == 0.
Proof.
  assert (H1 : Cents (position initial)) by apply Cents_0.
  assert (H2 : Cents (open fifoO1)) by apply Cents_1.
  assert (H3 : 0 <= open fifoO1) by discriminate.
  assert (H4 : open fifoC1 == open fifoO1) by reflexivity.
  repeat (split; [first [reflexivity|assumption]|]).
  apply (open_then_close_restores_position initial fifoO1 fifoC1 eq_refl
           H1 H2 H3 eq_refl eq_refl eq_refl H4).
Defined.

(* ------------------------------------------------------------------ *)
(** ** The rounding of a row *)







(* ------------------------------------------------------------------ *)
(** ** Two opens under one key *)

Lemma has_true_iff {V : Type} (k : string) (o : JsObject.t V) :
  JsObject.has k o = true <-> In k (JsObject.keys o).
Proof.
  destruct (JsObject.has k o) eqn:E.
  - split; [intros _|reflexivity].
    destruct (in_dec string_dec k (JsObject.keys o)) as [H|H]; [exact H|].
    apply has_false_iff in H. congruence.
  - apply has_false_iff in E. split; [discriminate|]. intro H. contradiction.
Qed.

Lemma get_replace {V : Type} (k : string) (v : V) (o : JsObject.t V) :
  In k (JsObject.keys o) -> JsObject.get k (JsObject.replace k v o) = Some v.
Proof.
  induction o as [|[k' v'] o IH]; simpl; [tauto|].
  destruct (k' =? k)%string eqn:E; simpl.
  - rewrite String.eqb_refl. reflexivity.
  - rewrite E. intros [H|H]; [|apply IH, H].
    apply String.eqb_neq in E. contradiction.
Qed.

(** X21.  An open whose time is the key of a lot that is still open does
    not add a lot: the keys of the object stay as they are, in their order,
    and the lot under that key now has the size and the price of the new
    open, the earlier ones being gone; the net position moves by the new
    size all the same. *)
Theorem open_under_a_key_in_use_overwrites :
  forall (st : Position) (t : Trade),
    isOpenTrade t = true ->
    In (time t) (JsObject.keys (openOrderMap st)) ->
    let st' := Analytics.applyTrade st t in
    JsObject.keys (openOrderMap st') = JsObject.keys (openOrderMap st) /\
    JsObject.get (time t) (openOrderMap st') = Some (snd (lotOf t)) /\
    position st'
    = JsNumber.toFixedNumber 2 (position st + fst (snd (lotOf t))) /\
    closedProfit st' = closedProfit st.
Proof.
  intros st t Hopen Hin st'.
  assert (Hset : forall v, JsObject.set (time t) v (openOrderMap st)
                           = JsObject.replace (time t) v (openOrderMap st)).
  { intro v. unfold JsObject.set.
    rewrite (proj2 (has_true_iff (time t) (openOrderMap st)) Hin). reflexivity. }
  unfold st', Analytics.applyTrade, applyTrade, applyBuy, applySell.
  unfold lotOf, isOpenTrade, isBuy, isSell in *. cbn [fst snd].
  destruct (JsString.toLowerCase (type t) =? "buy")%string.
  - cbn [openOrderMap position closedProfit]. rewrite Hset, keys_replace.
    repeat split. apply get_replace, Hin.
  - cbn [orb] in Hopen. rewrite Hopen.
    cbn [openOrderMap position closedProfit]. rewrite Hset, keys_replace.
    repeat split. apply get_replace, Hin.
Qed.

Lemma open_under_a_key_in_use_overwrites_witness :
  let st := after "s/l" (firstn 1 sameMinute) in
  let t := nth 1 sameMinute orphanClose in
  isOpenTrade t = true /\
  In (time t) (JsObject.keys (openOrderMap st)) /\
  JsObject.keys (openOrderMap (Analytics.applyTrade st t))
  = JsObject.keys (openOrderMap st) /\
  JsObject.get (time t) (openOrderMap (Analytics.applyTrade st t))
  = Some (1, 1.1005).
Proof.
  cbv zeta.
  assert (Hin : In (time (nth 1 sameMinute orphanClose))
                   (JsObject.keys (openOrderMap (after "s/l" (firstn 1 sameMinute)))))
    by (left; reflexivity).
  destruct (open_under_a_key_in_use_overwrites
              (after "s/l" (firstn 1 sameMinute)) (nth 1 sameMinute orphanClose)
              eq_refl Hin) as (Hkeys & Hget & _).
  split; [reflexivity|]. split; [exact Hin|]. split; [exact Hkeys|exact Hget].
Defined.

(* ------------------------------------------------------------------ *)
(** ** A long and a short lot of one size *)

(** A number added to zero and then taken away again leaves a zero, or no
    number at all when it is infinite or no number itself. *)
Lemma SFadd_back_to_zero (x : spec_float) :
  let r := SF64add (SF64add (S754_zero false) x) (SFopp x) in
  (exists s, r = S754_zero s) \/ r = S754_nan.
Proof.
  destruct x as [s|s| |s m e]; cbn -[Z.min Z.sub Z.add].
  - left. destruct s; eexists; reflexivity.
  - right. destruct s; reflexivity.
  - right. reflexivity.
  - left. exists false. unfold SF64add, SFadd.
    rewrite Z.min_id. unfold shl_align. rewrite Z.sub_diag. cbn [fst].
    destruct s; cbn [cond_Zopp negb];
      rewrite ?Z.add_opp_diag_l, ?Z.add_opp_diag_r; reflexivity.
Qed.

Lemma double_opp_involutive (x : float) : (- - x)%float = x.
Proof.
  apply Prim2SF_inj. rewrite !opp_spec.
  destruct (Prim2SF x) as [s|s| |s m e]; cbn [SFopp];
    rewrite ?negb_involutive; reflexivity.
Qed.

Lemma sum_of_hedged_lots (a : float) :
  JsDouble.gtb (abs (0 + a + - a)) 0.001 = false.
Proof.
  unfold JsDouble.gtb. rewrite ltb_spec, abs_spec, !add_spec, opp_spec.
  change (Prim2SF 0) with (S754_zero false).
  destruct (SFadd_back_to_zero (Prim2SF a)) as [[s ->]| ->]; reflexivity.
Qed.

(** X22.  When the open lots are a long and a short one of the same size,
    in either order, [calculateAverageEntryPrice] returns 0 whatever the two
    entry prices: the sizes as binary64 numbers add up to zero, or to no
    number when the size is infinite or no number, and neither is above
    0.001. *)
Theorem hedged_lots_give_the_sentinel :
  forall (k1 k2 : string) (lots price1 price2 : float),
    Binary64.calculateAverageEntryPrice
      [(k1, (lots, price1)); (k2, (- lots, price2)%float)] = 0%float /\
    Binary64.calculateAverageEntryPrice
      [(k1, (- lots, price1)%float); (k2, (lots, price2))] = 0%float.
Proof.
  intros k1 k2 lots price1 price2. rewrite !aep64_by_cases.
  unfold netLots64, sum64. cbn [map fold_left fst snd]. split.
  - rewrite sum_of_hedged_lots. reflexivity.
  - pose proof (sum_of_hedged_lots (- lots)) as H.
    rewrite double_opp_involutive in H. rewrite H. reflexivity.
Qed.
